(** * mask-price-data: consolidation, outlier filtering and export

    A shallow embedding of [mp_data/data.py] (with the record types of
    [mp_data/db.py]) and the properties of its consolidation and export
    pipeline.

    Python values are modelled as follows.
    - [int] is [Z]; a nullable column ([Optional]) is an [option].
    - [float] is the IEEE binary64 type [PrimFloat.float], so that division
      by zero and NaN comparisons behave as they do in Python and numpy.
    - [str] is [string]; Python compares strings by code point, which on
      UTF-8 bytes is the byte-wise lexicographic order [String.leb].
    - a raised exception is the [Raise] branch of [result].
    - a [dict] whose iteration order the code relies on is an association
      list in insertion order.
    - the iteration order of a [set] of strings and the values drawn from
      [uuid.uuid4] differ from one process to the next; both are fields of
      the [process] record that a run receives. *)

From Stdlib Require Import ZArith List String Ascii Bool Arith Lia.
From Stdlib Require Import Permutation Sorted.
From Stdlib Require Import Uint63 Floats.
Import ListNotations.

Local Open Scope string_scope.
Local Open Scope list_scope.

(** ** Exceptions *)

Inductive exn : Type :=
| TypeError
| ValueError
| IndexError
| StopIteration
| ZeroDivisionError
| LibraryError.

Inductive result (A : Type) : Type :=
| Ok (a : A)
| Raise (e : exn).

Arguments Ok {A} a.
Arguments Raise {A} e.

Definition bind {A B : Type} (r : result A) (k : A -> result B) : result B :=
  match r with
  | Ok a => k a
  | Raise e => Raise e
  end.

Notation "x <- r ;; k" := (bind r (fun x => k))
  (at level 61, r at next level, right associativity).

(** [list(map(f, xs))] for an [f] that may raise: the first exception, in
    list order, aborts the traversal. *)
Fixpoint mapM {A B : Type} (f : A -> result B) (xs : list A) : result (list B) :=
  match xs with
  | [] => Ok []
  | x :: xs' => y <- f x ;; ys <- mapM f xs' ;; Ok (y :: ys)
  end.

(** A [for] loop over [xs] threading an accumulator. *)
Fixpoint for_each {A S : Type} (xs : list A) (body : A -> S -> result S) (s : S)
  : result S :=
  match xs with
  | [] => Ok s
  | x :: xs' => s' <- body x s ;; for_each xs' body s'
  end.

(** ** Records of [db.py] *)

(** [datetime.datetime]; only the calendar fields are read by the export. *)
Record datetime : Type := mk_datetime {
  year : nat;
  month : nat;
  day : nat;
  seconds_of_day : Z
}.

(** [datetime.date] *)
Record date : Type := mk_date {
  d_year : nat;
  d_month : nat;
  d_day : nat
}.

Record HIT : Type := mk_HIT {
  h_hit_id : string;
  creation_time : datetime;
  url_param : string;
  h_domain_name : string
}.

Record Assignment : Type := mk_Assignment {
  hit_id : string;
  a_in_stock : bool;
  a_price : option Z;
  a_currency : option string;
  a_quantity : option Z;
  hit : HIT
}.

(** ** The observation model *)

Record _Observation : Type := mk_Observation {
  o_datetime : datetime;
  price_cents : option Z;
  currency_symbol : option string;
  quantity : Z;
  in_stock : bool;
  domain_name : string;
  url : string;
  uuid : string
}.

(** What differs between two runs of the program: the values [uuid.uuid4]
    hands out, in the order of the calls, and the order in which a set of
    strings built from a given list is iterated. *)
Record process : Type := mk_process {
  uuid4 : nat -> string;
  set_iter : list string -> list string
}.

(** A set holds each inserted string once, whatever the order. *)
Definition set_iter_ok (p : process) : Prop :=
  forall l, NoDup (set_iter p l) /\ (forall x, In x (set_iter p l) <-> In x l).

(** [uuid.uuid4] never repeats an identifier. *)
Definition uuid4_fresh (p : process) : Prop :=
  forall i j, uuid4 p i = uuid4 p j -> i = j.

Definition OUTLIER_THRESHOLD : Z := 1.
Definition MIN_MATCHING_RESULT : nat := 2.

(** ** Floats *)

(** [float(z)] for an integer below [2^63] in absolute value, which covers
    every price in cents and every quantity. *)
Definition float_of_Z (z : Z) : float :=
  if (z <? 0)%Z then PrimFloat.opp (PrimFloat.of_uint63 (Uint63.of_Z (- z)))
  else PrimFloat.of_uint63 (Uint63.of_Z z).

(** ** Dates as text *)

Definition digit (n : nat) : ascii := ascii_of_nat (48 + n mod 10).

Definition zfill2 (n : nat) : string :=
  String (digit (n / 10)) (String (digit n) EmptyString).

Definition zfill4 (n : nat) : string :=
  String (digit (n / 1000)) (String (digit (n / 100)) (zfill2 n)).

(** [d.strftime("%Y-%m-%d")] *)
Definition strftime_Ymd (d : date) : string :=
  zfill4 (d_year d) ++ "-" ++ zfill2 (d_month d) ++ "-" ++ zfill2 (d_day d).

(** ** Strings *)

Fixpoint replace_char (c r : ascii) (s : string) : string :=
  match s with
  | EmptyString => EmptyString
  | String a s' => String (if Ascii.eqb a c then r else a) (replace_char c r s')
  end.

(** ** Properties of an observation that need no external library *)

Definition price (o : _Observation) : result float :=
  match price_cents o with
  | None => Raise TypeError
  | Some c => Ok (float_of_Z c / float_of_Z 100)%float
  end.

Definition o_date (o : _Observation) : date :=
  let t := o_datetime o in mk_date (year t) (month t) (day t).

Definition date_str (o : _Observation) : string := strftime_Ymd (o_date o).

Definition marketplace (o : _Observation) : string :=
  let prefix := "www." in
  let name :=
    if String.prefix prefix (domain_name o)
    then substring (String.length prefix)
                   (String.length (domain_name o) - String.length prefix)
                   (domain_name o)
    else domain_name o in
  replace_char "."%char "_"%char name.

Arguments strftime_Ymd : simpl never.
Arguments date_str : simpl never.
Arguments marketplace : simpl never.

(** ** The consolidator *)

(** The key of the [count] dictionary:
    [(a.price, a.quantity, a.currency, a.in_stock)]. *)
Definition report : Type := (option Z * option Z * option string * bool)%type.

Definition report_of (a : Assignment) : report :=
  (a_price a, a_quantity a, a_currency a, a_in_stock a).

Definition option_eqb {A : Type} (eqb : A -> A -> bool) (x y : option A) : bool :=
  match x, y with
  | None, None => true
  | Some a, Some b => eqb a b
  | _, _ => false
  end.

Definition report_eqb (s t : report) : bool :=
  let '(p1, q1, c1, i1) := s in
  let '(p2, q2, c2, i2) := t in
  option_eqb Z.eqb p1 p2 && option_eqb Z.eqb q1 q2
  && option_eqb String.eqb c1 c2 && Bool.eqb i1 i2.

(** [count[t] += 1] on a [defaultdict(int)]: a key seen before keeps its
    place, a new key goes to the end with value 1. *)
Fixpoint count_incr (t : report) (count : list (report * nat))
  : list (report * nat) :=
  match count with
  | [] => [(t, 1)]
  | (k, n) :: rest =>
      if report_eqb k t then (k, S n) :: rest else (k, n) :: count_incr t rest
  end.

Definition count_reports (assignments : list Assignment) : list (report * nat) :=
  fold_left (fun count a => count_incr (report_of a) count) assignments [].

(** [max(xs)] raises [ValueError] on an empty sequence. *)
Definition py_max (xs : list nat) : result nat :=
  match xs with
  | [] => Raise ValueError
  | x :: xs' => Ok (fold_left Nat.max xs' x)
  end.

(** [next(k for k in count if count[k] == max_count)] *)
Definition first_with_count (count : list (report * nat)) (max_count : nat)
  : result report :=
  match find (fun kv => Nat.eqb (snd kv) max_count) count with
  | Some kv => Ok (fst kv)
  | None => Raise StopIteration
  end.

(** [5 <= quantity <= 500 and quantity % 5 == 0]; comparing [None] with an
    integer raises [TypeError]. *)
Definition _check_legit_quantity (quantity : option Z) : result bool :=
  match quantity with
  | None => Raise TypeError
  | Some q => Ok ((5 <=? q)%Z && (q <=? 500)%Z && (q mod 5 =? 0)%Z)
  end.

(** [price == 0]: [None == 0] is [False]. *)
Definition price_is_zero (p : option Z) : bool :=
  match p with
  | Some z => (z =? 0)%Z
  | None => false
  end.

(** [assignments[0]] *)
Definition first_item {A : Type} (xs : list A) : result A :=
  match xs with
  | [] => Raise IndexError
  | x :: _ => Ok x
  end.

(** [_consolidate_assignments].  [k] counts the identifiers drawn so far;
    constructing an observation draws the next one ([__post_init__]).  The
    quantity passed to the constructor has gone through
    [_check_legit_quantity], so it is an integer. *)
Definition _consolidate_assignments (p : process) (assignments : list Assignment)
  (k : nat) : result (option _Observation * nat) :=
  if Nat.eqb (List.length assignments) 0 then Ok (None, k)
  else
    let count := count_reports assignments in
    max_count <- py_max (map snd count) ;;
    if Nat.leb MIN_MATCHING_RESULT max_count then
      majority <- first_with_count count max_count ;;
      let '(price, quantity, currency, in_stock) := majority in
      legit <- _check_legit_quantity quantity ;;
      if negb legit || price_is_zero price then Ok (None, k)
      else
        a0 <- first_item assignments ;;
        let hit := hit a0 in
        match quantity with
        | None => Raise TypeError
        | Some q =>
            Ok (Some (mk_Observation (creation_time hit) price currency q
                        in_stock (h_domain_name hit) (url_param hit)
                        (uuid4 p k)),
                S k)
        end
    else Ok (None, k).

(** ** Sorting *)

(** Insertion of [x] before the first element it does not exceed. *)
Fixpoint insert_sorted {A : Type} (le : A -> A -> bool) (x : A) (l : list A)
  : list A :=
  match l with
  | [] => [x]
  | y :: l' => if le x y then x :: l else y :: insert_sorted le x l'
  end.

Fixpoint isort {A : Type} (le : A -> A -> bool) (l : list A) : list A :=
  match l with
  | [] => []
  | x :: l' => insert_sorted le x (isort le l')
  end.

(** [sorted(xs)] on strings: the ascending rearrangement. *)
Definition py_sorted (xs : list string) : list string := isort String.leb xs.

(** [xs[-1]] *)
Definition last_item {A : Type} (xs : list A) : result A :=
  match rev xs with
  | [] => Raise IndexError
  | x :: _ => Ok x
  end.

(** The order of a sorted float64 column: ascending, NaN last. *)
Definition float_le (x y : float) : bool :=
  PrimFloat.is_nan y || (x <=? y)%float.

(** ** numpy and scipy on a column of floats *)

Definition np_sum (xs : list float) : float :=
  fold_left PrimFloat.add xs 0%float.

Definition np_mean (xs : list float) : float :=
  (np_sum xs / float_of_Z (Z.of_nat (List.length xs)))%float.

(** [a.std()], the population standard deviation ([ddof = 0]). *)
Definition np_std (xs : list float) : float :=
  let m := np_mean xs in
  PrimFloat.sqrt (np_mean (map (fun x => ((x - m) * (x - m))%float) xs)).

(** [scipy.stats.zscore(a)]: [(a - a.mean()) / a.std()]. *)
Definition zscore (xs : list float) : list float :=
  let mn := np_mean xs in
  let sd := np_std xs in
  map (fun x => ((x - mn) / sd)%float) xs.

(** ** Output files *)

Definition row : Type := (string * float)%type.

(** A two-column data frame as [to_csv(index=False)] writes it: the header
    and the rows in order. *)
Record csv : Type := mk_csv {
  columns : string * string;
  rows : list row
}.

(** The output directory after [rmtree] and [mkdir]: the files written so
    far, the most recent last. *)
Definition out_dir : Type := list (string * csv).

Definition write_file (path : string) (c : csv) (fs : out_dir) : out_dir :=
  fs ++ [(path, c)].

Definition read_file (fs : out_dir) (path : string) : option csv :=
  match find (fun f => String.eqb (fst f) path) (rev fs) with
  | Some f => Some (snd f)
  | None => None
  end.

(** [d[k].append(v)] on a [defaultdict(list)]. *)
Fixpoint dict_append {K V : Type} (eqb : K -> K -> bool) (k : K) (v : V)
  (d : list (K * list V)) : list (K * list V) :=
  match d with
  | [] => [(k, [v])]
  | (k', vs) :: rest =>
      if eqb k' k then (k', vs ++ [v]) :: rest
      else (k', vs) :: dict_append eqb k v rest
  end.

Definition pair_eqb (s t : string * string) : bool :=
  String.eqb (fst s) (fst t) && String.eqb (snd s) (snd t).

(** [_fetch_assignments]: the rows of the assignments table grouped by
    [hit_id], groups in order of first appearance. *)
Definition _fetch_assignments (table : list Assignment)
  : list (string * list Assignment) :=
  fold_left (fun d a => dict_append String.eqb (hit_id a) a d) table [].


(** ** Sample data *)

Definition sample_time : datetime := mk_datetime 2020 4 1 43200%Z.

Definition sample_hit : HIT :=
  mk_HIT "HIT1" sample_time "https://www.amazon.com/dp/B1" "www.amazon.com".

(** A report of a worker for [sample_hit]: in stock, priced in dollars. *)
Definition sample_report (price quantity : option Z) : Assignment :=
  mk_Assignment "HIT1" true price (Some "$") quantity sample_hit.

Fixpoint letters (c : ascii) (n : nat) : string :=
  match n with
  | O => EmptyString
  | S n' => String c (letters c n')
  end.

(** Two processes: they draw different identifiers and iterate sets in
    opposite orders. *)
Definition sample_process : process :=
  mk_process (letters "a"%char) (nodup string_dec).

Definition other_process : process :=
  mk_process (letters "b"%char) (fun l => rev (nodup string_dec l)).

Definition sample_observation (price : option Z) (quantity : Z) (id : string)
  : _Observation :=
  mk_Observation sample_time price (Some "$") quantity true
    "www.amazon.com" "https://www.amazon.com/dp/B1" id.

(** Stand-ins for the external libraries: a symbol table with two
    entries, a conversion at a fixed rate, the median of a list, and
    insertion sort for [sort_values]. *)
Definition sample_parse (symbol : option string) : result (list string) :=
  match symbol with
  | None => Raise TypeError
  | Some s =>
      if String.eqb s "US$" then Ok ["USD"]
      else if String.eqb s "CHF" then Ok ["CHF"]
      else Ok []
  end.

Definition sample_convert (amount : float) (currency : string) (d : date)
  : result float :=
  if String.eqb currency "CHF" then Ok (amount * 2)%float else Raise ValueError.

(** The conversion of a process started later: the table it downloads
    holds the rate of a day for which the earlier table fell back on the
    last known rate. *)
Definition later_convert (amount : float) (currency : string) (d : date)
  : result float :=
  if String.eqb currency "CHF" then Ok (amount * 3)%float else Raise ValueError.

Definition sample_median (xs : list float) : float :=
  let sorted := isort float_le xs in
  let n := List.length xs in
  if Nat.even n
  then ((nth (n / 2 - 1) sorted PrimFloat.nan + nth (n / 2) sorted PrimFloat.nan)
        / 2)%float
  else nth (n / 2) sorted PrimFloat.nan.

Definition sample_sort_str (l : list row) : list row :=
  isort (fun r1 r2 => String.leb (fst r1) (fst r2)) l.

Definition sample_sort_float (l : list row) : list row :=
  isort (fun r1 r2 => float_le (snd r1) (snd r2)) l.

(** A bucket of four observations with the same unit price. *)
Definition identical_bucket : list _Observation :=
  [sample_observation (Some 5000%Z) 5 "a";
   sample_observation (Some 5000%Z) 5 "b";
   sample_observation (Some 5000%Z) 5 "c";
   sample_observation (Some 5000%Z) 5 "d"].

(** A bucket of three observations with different unit prices. *)
Definition spread_bucket : list _Observation :=
  [sample_observation (Some 5000%Z) 5 "a";
   sample_observation (Some 6000%Z) 5 "b";
   sample_observation (Some 7000%Z) 5 "c"].

(** The reports of two tasks: three workers on the first, two on the
    second, a day later on another marketplace. *)
Definition other_hit : HIT :=
  mk_HIT "HIT2" (mk_datetime 2020 4 2 0%Z) "https://www.ebay.com/itm/7"
    "www.ebay.com".

Definition sample_table : list Assignment :=
  [sample_report (Some 1000%Z) (Some 5%Z);
   mk_Assignment "HIT2" true (Some 2500%Z) (Some "CHF") (Some 50%Z) other_hit;
   sample_report (Some 1000%Z) (Some 5%Z);
   sample_report (Some 1200%Z) (Some 5%Z);
   mk_Assignment "HIT2" true (Some 2500%Z) (Some "CHF") (Some 50%Z) other_hit].

(** ** The import helpers and the batch commands of [mturk.py]

    Text that goes through the regular expressions is a list of code
    points.  The answers of the MTurk API are records of the fields the
    commands read. *)

Definition text : Type := list N.

Definition comma : N := 44.
Definition dot : N := 46.
Definition newline : N := 10.

(** [[0-9]] *)
Definition is_digit (c : N) : bool := (48 <=? c)%N && (c <=? 57)%N.

(** The look-ahead [(?=[0-9]{3,})]. *)
Definition digits_ahead (s : text) : bool :=
  match s with
  | a :: b :: c :: _ => is_digit a && is_digit b && is_digit c
  | _ => false
  end.

(** [,[0-9]{1,2}$] tried right after a comma: what follows the match, when
    there is one.  [$] stands at the end of the text and before a newline
    that ends it. *)
Definition decimal_comma_match (rest : text) : option text :=
  match rest with
  | [a] => if is_digit a then Some [] else None
  | [a; b] =>
      if is_digit a && is_digit b then Some []
      else if is_digit a && (b =? newline)%N then Some [b]
      else None
  | [a; b; c] =>
      if is_digit a && is_digit b && (c =? newline)%N then Some [c] else None
  | _ => None
  end.

(** [regex.sub(r",[0-9]{1,2}$", ".", res)] *)
Fixpoint replace_decimal_comma (s : text) : text :=
  match s with
  | [] => []
  | c :: rest =>
      if (c =? comma)%N then
        match decimal_comma_match rest with
        | Some tail => dot :: tail
        | None => c :: replace_decimal_comma rest
        end
      else c :: replace_decimal_comma rest
  end.

(** An answer of [list_hits]. *)
Record api_hit : Type := mk_api_hit {
  HITId : string;
  RequesterAnnotation : string;
  HITStatus : string
}.

Section MturkModel.

(** The character classes [\s] and [\p{Sc}] of the [regex] module,
    [float(s)] ([None] for its [ValueError]), [round(x)], and the
    [batch_name] column of the hits table. *)
Variable is_space : N -> bool.
Variable is_Sc : N -> bool.
Variable py_float : text -> option float.
Variable py_round : float -> result Z.
Variable batch_name : HIT -> string.

(** [regex.sub(r"[\s,.](?=[0-9]{3,})", "", num_str)] *)
Fixpoint strip_thousand_separators (s : text) : text :=
  match s with
  | [] => []
  | c :: rest =>
      if (is_space c || (c =? comma)%N || (c =? dot)%N) && digits_ahead rest
      then strip_thousand_separators rest
      else c :: strip_thousand_separators rest
  end.

(** [_clean_price]: a [ValueError], of [float] or of [round], gives
    [None]; another exception of [round] goes through. *)
Definition _clean_price (num_str : text) : result (option Z) :=
  let res := strip_thousand_separators num_str in
  let res := replace_decimal_comma res in
  match py_float res with
  | None => Ok None
  | Some x =>
      match py_round (x * float_of_Z 100)%float with
      | Ok z => Ok (Some z)
      | Raise ValueError => Ok None
      | Raise e => Raise e
      end
  end.

(** [regex.search(r"^\p{Sc}|\p{Sc}$", raw_price)] from position [i] on:
    the start of the leftmost match. *)
Fixpoint search_currency_from (i : nat) (s : text) : option nat :=
  match s with
  | [] => None
  | c :: rest =>
      if is_Sc c &&
         (Nat.eqb i 0 ||
          match rest with
          | [] => true
          | [n] => (n =? newline)%N
          | _ => false
          end)
      then Some i
      else search_currency_from (S i) rest
  end.

(** [_parse_price_currency] *)
Definition _parse_price_currency (raw_price : option text) (in_stock : bool)
  : result (option Z * option text) :=
  match raw_price with
  | None => Ok (None, None)
  | Some raw =>
      match search_currency_from 0 raw with
      | None => if in_stock then Raise ValueError else Ok (None, None)
      | Some start =>
          price <-
            (if Nat.eqb start 0 then _clean_price (skipn (S start) raw)
             else _clean_price (firstn start raw)) ;;
          Ok (price, Some (firstn 1 (skipn start raw)))
      end
  end.

(** [prune]: the [delete_hit] calls in order, and the count echoed. *)
Definition prune (force : bool) (table : list Assignment) (hits : list api_hit)
  : list string * nat :=
  let imported_batches := map (fun a => batch_name (hit a)) table in
  let ignore_statuses := ["Assignable"; "Unassignable"] in
  fold_left
    (fun (st : list string * nat) hit =>
       let should_delete :=
         force || existsb (String.eqb (RequesterAnnotation hit)) imported_batches in
       if should_delete
          && negb (existsb (String.eqb (HITStatus hit)) ignore_statuses)
       then (fst st ++ [HITId hit], S (snd st))
       else st)
    hits ([], 0).

End MturkModel.

(** [ls]: the lines echoed. *)
Definition ls (p : process) (hits : list api_hit) : list string :=
  py_sorted (set_iter p (map RequesterAnnotation hits)).

(** Stand-ins for the character classes and the number functions: blank
    and control whitespace, the dollar sign, decimal digits with an
    optional final dot, and a rounding that is exact on whole numbers. *)
Definition sample_is_space (c : N) : bool :=
  (c =? 32)%N || ((9 <=? c)%N && (c <=? 13)%N).

Definition sample_is_Sc (c : N) : bool := (c =? 36)%N.

Fixpoint digits_value (acc : Z) (s : text) : option Z :=
  match s with
  | [] => Some acc
  | c :: rest =>
      if is_digit c then digits_value (10 * acc + (Z.of_N c - 48)) rest
      else if (c =? dot)%N then
        match rest with
        | [] => Some acc
        | _ => None
        end
      else None
  end.

Definition sample_float (s : text) : option float :=
  match s with
  | [] => None
  | _ => option_map float_of_Z (digits_value 0 s)
  end.

Definition sample_round (x : float) : result Z :=
  match Prim2SF x with
  | SpecFloat.S754_zero _ => Ok 0%Z
  | SpecFloat.S754_finite s m e =>
      Ok (if s then - Z.shiftl (Zpos m) e else Z.shiftl (Zpos m) e)%Z
  | SpecFloat.S754_nan => Raise ValueError
  | SpecFloat.S754_infinity _ => Raise LibraryError
  end.

Definition sample_batch_name (h : HIT) : string := "batch_2020-04-01_12_00_00".

Definition sample_hits : list api_hit :=
  [mk_api_hit "H1" "batch_b" "Reviewable";
   mk_api_hit "H2" "batch_a" "Assignable";
   mk_api_hit "H3" "batch_b" "Disposed"].
Section Pipeline.

(** The external libraries.  [iso4217parse.parse] returns the candidate
    currencies of a symbol (their [alpha3] codes here).
    [CurrencyConverter.convert amount currency "USD" date] reads the
    exchange-rate table loaded on first use.  [np.median] is numpy's.
    [DataFrame.sort_values] is pandas' (default [quicksort], which need not
    be stable), on a column of strings and on a column of floats. *)
Variable iso4217parse_parse : option string -> result (list string).
Variable cc_convert : float -> string -> date -> result float.
Variable np_median : list float -> float.
Variable sort_values_str : list row -> list row.
Variable sort_values_float : list row -> list row.

(** What is relied on of [sort_values]: the rows come back rearranged in
    ascending order of the column, a missing number (NaN) last. *)
Definition rows_by_str (r1 r2 : row) : Prop := String.leb (fst r1) (fst r2) = true.
Definition rows_by_float (r1 r2 : row) : Prop := float_le (snd r1) (snd r2) = true.

Hypothesis sort_values_str_perm : forall l, Permutation (sort_values_str l) l.
Hypothesis sort_values_str_sorted : forall l, Sorted rows_by_str (sort_values_str l).
Hypothesis sort_values_float_perm : forall l, Permutation (sort_values_float l) l.
Hypothesis sort_values_float_sorted :
  forall l, Sorted rows_by_float (sort_values_float l).

Definition iso_currency (o : _Observation) : result string :=
  if option_eqb String.eqb (currency_symbol o) (Some "$") then Ok "USD"
  else
    cs <- iso4217parse_parse (currency_symbol o) ;;
    first_item cs.

Definition price_usd (o : _Observation) : result float :=
  c <- iso_currency o ;;
  if String.eqb c "USD" then price o
  else
    amount <- price o ;;
    c' <- iso_currency o ;;
    cc_convert amount c' (o_date o).

(** [float / int] raises [ZeroDivisionError] on a zero divisor. *)
Definition unit_price_usd (o : _Observation) : result float :=
  p <- price_usd o ;;
  if (quantity o =? 0)%Z then Raise ZeroDivisionError
  else Ok (p / float_of_Z (quantity o))%float.

(** *** The outlier filter *)

Definition in_bucket (m d : string) (o : _Observation) : bool :=
  String.eqb (marketplace o) m && String.eqb (date_str o) d.

(** The body of the loop of [_filter_outliers] for the bucket [(m, d)]. *)
Definition filter_bucket (observations : list _Observation)
  (md : string * string) (results : list _Observation)
  : result (list _Observation) :=
  let '(m, d) := md in
  let curr_observations := filter (in_bucket m d) observations in
  let indices := map uuid curr_observations in
  unit_prices <- mapM unit_price_usd curr_observations ;;
  if Nat.ltb (List.length indices) 3 then Ok (results ++ curr_observations)
  else
    let df := combine indices unit_prices in
    let condition :=
      map (fun z => (PrimFloat.abs z <? float_of_Z OUTLIER_THRESHOLD)%float)
          (zscore (map snd df)) in
    let allowed_uuids :=
      map (fun ic => fst (fst ic)) (filter snd (combine df condition)) in
    Ok (results ++
        filter (fun o => existsb (String.eqb (uuid o)) allowed_uuids)
               curr_observations).

Definition _filter_outliers (p : process) (observations : list _Observation)
  : result (list _Observation) :=
  let marketplaces := set_iter p (map marketplace observations) in
  let dates := set_iter p (map date_str observations) in
  for_each (list_prod marketplaces dates) (filter_bucket observations) [].

(** *** The exporters *)

Definition _export_timeseries (observations : list _Observation) (out : out_dir)
  : result out_dir :=
  daily_unit_prices <-
    for_each observations
      (fun o d =>
         u <- unit_price_usd o ;;
         Ok (dict_append pair_eqb (date_str o, marketplace o) u d))
      [] ;;
  let daily_medians :=
    fold_left
      (fun dm (kv : (string * string) * list float) =>
         let '((date_str, marketplace), unit_prices) := kv in
         dict_append String.eqb marketplace (date_str, np_median unit_prices) dm)
      daily_unit_prices [] in
  Ok (fold_left
        (fun fs (kv : string * list row) =>
           let '(k, v) := kv in
           write_file (k ++ "_timeseries.csv")
             (mk_csv ("Date", "Median_Unit_Price_$") (sort_values_str v)) fs)
        daily_medians out).

(** Sorting a frame made from an empty list by a column raises
    [KeyError] ([LibraryError] here). *)
Definition _export_latest_marketplace (all_observations : list _Observation)
  (marketplace_ : string) (out : out_dir) : result out_dir :=
  let observations :=
    filter (fun o => String.eqb (marketplace o) marketplace_) all_observations in
  latest_date <- last_item (py_sorted (map date_str observations)) ;;
  items <-
    for_each observations
      (fun o items =>
         if String.eqb (date_str o) latest_date then
           u <- unit_price_usd o ;; Ok (items ++ [(url o, u)])
         else Ok items)
      [] ;;
  match items with
  | [] => Raise LibraryError
  | _ =>
      Ok (write_file (marketplace_ ++ "_latest.csv")
            (mk_csv ("Url", "Unit_Price_$") (sort_values_float items)) out)
  end.

Definition _export_latest_observations (p : process)
  (observations : list _Observation) (out : out_dir) : result out_dir :=
  let marketplaces := set_iter p (map marketplace observations) in
  for_each marketplaces (_export_latest_marketplace observations) out.

(** *** The export command *)

(** The loop of [export] over the groups of assignments. *)
Fixpoint consolidate_all (p : process) (groups : list (list Assignment))
  (all_observations : list _Observation) (k : nat)
  : result (list _Observation * nat) :=
  match groups with
  | [] => Ok (all_observations, k)
  | assignments :: groups' =>
      rk <- _consolidate_assignments p assignments k ;;
      match fst rk with
      | Some res => consolidate_all p groups' (all_observations ++ [res]) (snd rk)
      | None => consolidate_all p groups' all_observations (snd rk)
      end
  end.

(** [export]: the files of the output directory after the run. *)
Definition export (p : process) (table : list Assignment) : result out_dir :=
  let assignments_dict := _fetch_assignments table in
  ak <- consolidate_all p (map snd assignments_dict) [] 0 ;;
  filtered_observations <- _filter_outliers p (fst ak) ;;
  out <- _export_timeseries filtered_observations [] ;;
  _export_latest_observations p filtered_observations out.


(** ** The notions the properties are stated with *)

(** The number of reports of [l] that carry the tuple [t]. *)
Definition occurrences (t : report) (l : list Assignment) : nat :=
  List.length (filter (fun a => report_eqb (report_of a) t) l).

(** The highest occurrence count among the tuples of [l]. *)
Definition max_occurrences (l : list Assignment) : nat :=
  fold_right Nat.max 0 (map (fun a => occurrences (report_of a) l) l).

(** The majority tuple: the first tuple, in the order of the reports, that
    reaches the highest occurrence count. *)
Definition majority (l : list Assignment) : option report :=
  find (fun t => Nat.eqb (occurrences t l) (max_occurrences l))
       (map report_of l).

(** A multiple of 5 in the inclusive range from 5 to 500. *)
Definition legit_quantity (q : Z) : Prop :=
  (5 <= q <= 500)%Z /\ (q mod 5 = 0)%Z.

(** The value a key holds in the [count] dictionary, 0 when absent. *)
Definition count_get (count : list (report * nat)) (k : report) : nat :=
  match find (fun kv => report_eqb (fst kv) k) count with
  | Some kv => snd kv
  | None => 0
  end.

(** The keys of a dictionary after one more insertion of [t]. *)
Definition add_key (t : report) (ks : list report) : list report :=
  if existsb (fun k => report_eqb k t) ks then ks else ks ++ [t].

(** The observations of [obs] that share the marketplace key and the
    calendar date of [o]. *)
Definition bucket_of (obs : list _Observation) (o : _Observation)
  : list _Observation :=
  filter (in_bucket (marketplace o) (date_str o)) obs.

(** The unit price in USD as a number, for an observation that has one. *)
Definition unit_price_or_nan (o : _Observation) : float :=
  match unit_price_usd o with
  | Ok u => u
  | Raise _ => PrimFloat.nan
  end.

(** The z-score of [x] relative to the mean and the standard deviation of
    [xs]. *)
Definition zscore_of (x : float) (xs : list float) : float :=
  ((x - np_mean xs) / np_std xs)%float.

(** What the outlier filter is to keep: everything in a bucket of fewer
    than 3 observations, and in a larger bucket the observations whose
    z-score is below 1 in absolute value. *)
Definition retained (obs : list _Observation) (o : _Observation) : bool :=
  let b := bucket_of obs o in
  if Nat.ltb (List.length b) 3 then true
  else (PrimFloat.abs (zscore_of (unit_price_or_nan o)
                                 (map unit_price_or_nan b)) <? 1)%float.

(** All unit prices of [obs] can be computed. *)
Definition priced (obs : list _Observation) : Prop :=
  forall o, In o obs -> exists u, unit_price_usd o = Ok u.

(** The date strings of the observations of marketplace [m]. *)
Definition dates_of (m : string) (obs : list _Observation) : list string :=
  map date_str (filter (fun o => String.eqb (marketplace o) m) obs).

(** [d] is the greatest of the strings [ds] in lexicographic order. *)
Definition is_latest (d : string) (ds : list string) : Prop :=
  In d ds /\ forall d', In d' ds -> String.leb d' d = true.

(** The row of an observation in the latest-snapshot table. *)
Definition latest_row (o : _Observation) : row := (url o, unit_price_or_nan o).

(** The rows of the observations of marketplace [m] dated [d]. *)
Definition latest_rows (m d : string) (obs : list _Observation) : list row :=
  map latest_row (filter (in_bucket m d) obs).

(** The date [_export_latest_marketplace] selects for marketplace [m]. *)
Definition latest_date (m : string) (obs : list _Observation) : string :=
  match last_item (py_sorted (dates_of m obs)) with
  | Ok d => d
  | Raise _ => EmptyString
  end.

(** The latest-snapshot file of marketplace [m]. *)
Definition latest_file (obs : list _Observation) (m : string) : string * csv :=
  ((m ++ "_latest.csv")%string,
   mk_csv ("Url", "Unit_Price_$")
          (sort_values_float (latest_rows m (latest_date m obs) obs))).

(** The list a key holds in a [defaultdict(list)], empty when absent. *)
Definition dict_get {K V : Type} (eqb : K -> K -> bool) (d : list (K * list V))
  (k : K) : list V :=
  match find (fun kv => eqb (fst kv) k) d with
  | Some kv => snd kv
  | None => []
  end.

(** The keys of a dictionary after an insertion under [k]. *)
Definition add_key_by {K : Type} (eqb : K -> K -> bool) (k : K) (ks : list K)
  : list K :=
  if existsb (fun k' => eqb k' k) ks then ks else ks ++ [k].

(** The dictionary built by appending each value under its key. *)
Definition group_by {K V : Type} (eqb : K -> K -> bool) (kvs : list (K * V))
  : list (K * list V) :=
  fold_left (fun d kv => dict_append eqb (fst kv) (snd kv) d) kvs [].

(** The values of [kvs] under the key [k], in order. *)
Definition values_of {K V : Type} (eqb : K -> K -> bool) (kvs : list (K * V))
  (k : K) : list V :=
  map snd (filter (fun kv => eqb (fst kv) k) kvs).

(** The unit prices of the bucket [(m, d)], in the order of [obs]. *)
Definition bucket_prices (obs : list _Observation) (m d : string) : list float :=
  map unit_price_or_nan (filter (in_bucket m d) obs).

(** The key of an observation in [daily_unit_prices]. *)
Definition daily_key (o : _Observation) : string * string :=
  (date_str o, marketplace o).

(** The [daily_unit_prices] dictionary of [_export_timeseries]. *)
Definition daily_unit_prices_of (obs : list _Observation)
  : list ((string * string) * list float) :=
  group_by pair_eqb (map (fun o => (daily_key o, unit_price_or_nan o)) obs).

(** What one entry of [daily_unit_prices] adds to [daily_medians]: the
    marketplace, and the row of the date with the median. *)
Definition median_entry (kv : (string * string) * list float) : string * row :=
  (snd (fst kv), (fst (fst kv), np_median (snd kv))).

(** The [daily_medians] dictionary of [_export_timeseries]. *)
Definition daily_medians_of (obs : list _Observation) : list (string * list row) :=
  group_by String.eqb (map median_entry (daily_unit_prices_of obs)).

(** The time-series file of one entry of [daily_medians]. *)
Definition timeseries_file (kv : string * list row) : string * csv :=
  ((fst kv ++ "_timeseries.csv")%string,
   mk_csv ("Date", "Median_Unit_Price_$") (sort_values_str (snd kv))).

(** An observation without its identifier. *)
Definition erase (o : _Observation) : _Observation :=
  mk_Observation (o_datetime o) (price_cents o) (currency_symbol o)
    (quantity o) (in_stock o) (domain_name o) (url o) EmptyString.

(** Two lists of observations hold, bucket by bucket, the same
    observations in the same order, identifiers aside. *)
Definition same_buckets (r1 r2 : list _Observation) : Prop :=
  forall m d,
    map erase (filter (in_bucket m d) r1) = map erase (filter (in_bucket m d) r2).

(** The files of the output directory after a run whose filter returned
    [r], in the order they are written. *)
Definition export_files (p : process) (r : list _Observation) : out_dir :=
  map timeseries_file (daily_medians_of r) ++
  map (latest_file r) (set_iter p (map marketplace r)).

(** A date of the four-digit years, where [%Y-%m-%d] has ten characters. *)
Definition calendar_date (d : date) : Prop :=
  1000 <= d_year d < 100 * 100 /\ 1 <= d_month d <= 12 /\ 1 <= d_day d <= 31.

(** [a] is not later than [b]. *)
Definition date_le (a b : date) : Prop :=
  d_year a < d_year b \/
  (d_year a = d_year b /\
   (d_month a < d_month b \/ (d_month a = d_month b /\ d_day a <= d_day b))).

(** * Properties *)

(** ** Equality tests *)

Lemma option_eqb_eq {A : Type} (eqb : A -> A -> bool) :
  (forall a b, eqb a b = true <-> a = b) ->
  forall x y : option A, option_eqb eqb x y = true <-> x = y.
Proof.
  intros H [a|] [b|]; simpl; try (split; congruence).
  rewrite H. split; congruence.
Qed.

Lemma report_eqb_eq (s t : report) : report_eqb s t = true <-> s = t.
Proof.
  destruct s as [[[p1 q1] c1] i1], t as [[[p2 q2] c2] i2]. unfold report_eqb.
  rewrite !andb_true_iff, !(option_eqb_eq Z.eqb Z.eqb_eq),
    (option_eqb_eq String.eqb String.eqb_eq), Bool.eqb_true_iff.
  split.
  - intros [[[-> ->] ->] ->]. reflexivity.
  - intros H. injection H as -> -> -> ->. auto.
Qed.

Lemma report_eqb_refl (t : report) : report_eqb t t = true.
Proof. apply report_eqb_eq. reflexivity. Qed.

Lemma report_eqb_neq (s t : report) : report_eqb s t = false <-> s <> t.
Proof.
  rewrite <- report_eqb_eq. destruct (report_eqb s t); split; congruence.
Qed.

(** ** The [count] dictionary *)

Lemma count_incr_keys t c : map fst (count_incr t c) = add_key t (map fst c).
Proof.
  unfold add_key. induction c as [|[k n] rest IH]; simpl; [reflexivity|].
  destruct (report_eqb k t); simpl; [reflexivity|].
  rewrite IH. destruct (existsb _ (map fst rest)); reflexivity.
Qed.

Lemma count_incr_get t c k :
  count_get (count_incr t c) k =
  if report_eqb t k then S (count_get c k) else count_get c k.
Proof.
  unfold count_get. induction c as [|[k' n] rest IH]; simpl.
  - destruct (report_eqb t k); reflexivity.
  - destruct (report_eqb k' t) eqn:Ekt; simpl.
    + apply report_eqb_eq in Ekt. subst k'.
      destruct (report_eqb t k); reflexivity.
    + destruct (report_eqb k' k) eqn:Ekk; simpl; [|exact IH].
      apply report_eqb_eq in Ekk. subst k'.
      assert (report_eqb t k = false) as ->; [|reflexivity].
      apply report_eqb_neq. apply report_eqb_neq in Ekt. congruence.
Qed.

Lemma occurrences_cons t a l :
  occurrences t (a :: l) =
  (if report_eqb (report_of a) t then 1 else 0) + occurrences t l.
Proof.
  unfold occurrences. cbn [filter].
  destruct (report_eqb (report_of a) t); reflexivity.
Qed.

Lemma fold_count_get l : forall c k,
  count_get (fold_left (fun count a => count_incr (report_of a) count) l c) k =
  occurrences k l + count_get c k.
Proof.
  induction l as [|a l IH]; intros c k; simpl; [reflexivity|].
  rewrite IH, count_incr_get, occurrences_cons.
  destruct (report_eqb (report_of a) k); lia.
Qed.

Lemma count_reports_get l k : count_get (count_reports l) k = occurrences k l.
Proof. unfold count_reports. rewrite fold_count_get. simpl. unfold count_get. simpl. lia. Qed.

Lemma in_add_key x t ks : In x (add_key t ks) <-> x = t \/ In x ks.
Proof.
  unfold add_key. destruct (existsb _ ks) eqn:E.
  - split; [auto|]. intros [->|H]; [|exact H].
    apply existsb_exists in E. destruct E as [k [Hk Ek]].
    apply report_eqb_eq in Ek. subst k. exact Hk.
  - rewrite in_app_iff. simpl. intuition.
Qed.

Lemma NoDup_add_key t ks : NoDup ks -> NoDup (add_key t ks).
Proof.
  intros H. unfold add_key. destruct (existsb _ ks) eqn:E; [exact H|].
  apply NoDup_rev in H. rewrite <- (rev_involutive (ks ++ [t])).
  apply NoDup_rev. rewrite rev_app_distr. simpl. constructor; [|exact H].
  rewrite <- in_rev. intros Hin.
  assert (existsb (fun k => report_eqb k t) ks = true); [|congruence].
  apply existsb_exists. exists t. split; [exact Hin|apply report_eqb_refl].
Qed.

Lemma fold_count_keys l : forall c,
  map fst (fold_left (fun count a => count_incr (report_of a) count) l c) =
  fold_left (fun ks a => add_key (report_of a) ks) l (map fst c).
Proof.
  induction l as [|a l IH]; intros c; simpl; [reflexivity|].
  rewrite IH, count_incr_keys. reflexivity.
Qed.

Lemma fold_add_key_NoDup l : forall ks,
  NoDup ks -> NoDup (fold_left (fun ks a => add_key (report_of a) ks) l ks).
Proof.
  induction l as [|a l IH]; intros ks H; simpl; [exact H|].
  apply IH, NoDup_add_key, H.
Qed.

Lemma fold_add_key_In l : forall ks x,
  In x (fold_left (fun ks a => add_key (report_of a) ks) l ks) <->
  In x ks \/ In x (map report_of l).
Proof.
  induction l as [|a l IH]; intros ks x; simpl; [tauto|].
  rewrite IH, in_add_key. intuition.
Qed.

Lemma count_reports_NoDup l : NoDup (map fst (count_reports l)).
Proof.
  unfold count_reports. rewrite fold_count_keys.
  apply fold_add_key_NoDup. constructor.
Qed.

Lemma count_reports_keys l x :
  In x (map fst (count_reports l)) <-> In x (map report_of l).
Proof.
  unfold count_reports. rewrite fold_count_keys, fold_add_key_In. simpl. tauto.
Qed.

Lemma count_get_In c k n :
  NoDup (map fst c) -> In (k, n) c -> count_get c k = n.
Proof.
  unfold count_get. induction c as [|[k' n'] rest IH]; simpl; [tauto|].
  intros Hnd [Heq|Hin].
  - injection Heq as -> ->. rewrite report_eqb_refl. reflexivity.
  - inversion Hnd as [|? ? Hnot Hnd']; subst.
    destruct (report_eqb k' k) eqn:E; [|apply IH; assumption].
    apply report_eqb_eq in E. subst k'. exfalso. apply Hnot.
    apply in_map_iff. exists (k, n). split; [reflexivity|exact Hin].
Qed.

Lemma count_reports_entry l k n :
  In (k, n) (count_reports l) -> n = occurrences k l.
Proof.
  intros H. rewrite <- count_reports_get. symmetry.
  apply count_get_In; [apply count_reports_NoDup|exact H].
Qed.

(** ** The highest count *)

Lemma fold_left_max_spec xs : forall x,
  In (fold_left Nat.max xs x) (x :: xs) /\
  (forall y, In y (x :: xs) -> y <= fold_left Nat.max xs x).
Proof.
  induction xs as [|z xs IH]; intros x; simpl.
  - split; [auto|]. intros y [->|[]]. lia.
  - destruct (IH (Nat.max x z)) as [Hin Hle]. split.
    + destruct Hin as [Heq|Hin]; [|auto].
      rewrite <- Heq. destruct (Nat.max_spec x z) as [[_ ->]|[_ ->]]; auto.
    + intros y Hy.
      assert (y <= Nat.max x z \/ In y xs) as [Hy'|Hy'].
      { destruct Hy as [->|[->|Hy]]; [left; lia|left; lia|right; exact Hy]. }
      * specialize (Hle (Nat.max x z) (or_introl eq_refl)). lia.
      * apply Hle. right. exact Hy'.
Qed.

Lemma fold_right_max_spec xs :
  xs <> [] ->
  In (fold_right Nat.max 0 xs) xs /\
  (forall y, In y xs -> y <= fold_right Nat.max 0 xs).
Proof.
  induction xs as [|x xs IH]; intros Hne; [congruence|]. simpl.
  destruct xs as [|z xs].
  - simpl. rewrite Nat.max_0_r. split; [auto|]. intros y [->|[]]. lia.
  - destruct IH as [Hin Hle]; [congruence|].
    remember (fold_right Nat.max 0 (z :: xs)) as M. split.
    + destruct (Nat.max_spec x M) as [[_ ->]|[_ ->]]; auto.
    + intros y [->|Hy]; [lia|]. specialize (Hle y Hy). lia.
Qed.

Lemma max_occurrences_spec l :
  l <> [] ->
  (exists a, In a l /\ occurrences (report_of a) l = max_occurrences l) /\
  (forall a, In a l -> occurrences (report_of a) l <= max_occurrences l).
Proof.
  intros Hne. unfold max_occurrences.
  destruct (fold_right_max_spec (map (fun a => occurrences (report_of a) l) l))
    as [Hin Hle].
  { destruct l; [congruence|discriminate]. }
  split.
  - apply in_map_iff in Hin. destruct Hin as [a [Ha Hin]]. exists a. auto.
  - intros a Ha. apply Hle. apply in_map_iff. exists a. auto.
Qed.

Lemma count_reports_nonempty l : l <> [] -> count_reports l <> [].
Proof.
  intros Hne Hc. destruct l as [|a l]; [congruence|].
  assert (In (report_of a) (map fst (count_reports (a :: l)))) as H.
  { apply count_reports_keys. simpl. auto. }
  rewrite Hc in H. exact H.
Qed.

Lemma py_max_count_reports l :
  l <> [] -> py_max (map snd (count_reports l)) = Ok (max_occurrences l).
Proof.
  intros Hne. pose proof (count_reports_nonempty l Hne) as Hc.
  destruct (max_occurrences_spec l Hne) as [[a [Ha Hmax]] Hle].
  destruct (count_reports l) as [|[k n] rest] eqn:E; [congruence|].
  simpl. f_equal.
  destruct (fold_left_max_spec (map snd rest) n) as [Hin Hub].
  set (M := fold_left Nat.max (map snd rest) n) in *.
  change (n :: map snd rest) with (map snd ((k, n) :: rest)) in Hin, Hub.
  rewrite <- E in Hin, Hub. apply Nat.le_antisymm.
  - apply in_map_iff in Hin. destruct Hin as [[k' n'] [Hn' Hin]].
    simpl in Hn'. pose proof (count_reports_entry _ _ _ Hin) as Hocc.
    assert (In k' (map report_of l)) as Hk'.
    { apply count_reports_keys. apply in_map_iff. exists (k', n'). auto. }
    apply in_map_iff in Hk'. destruct Hk' as [b [Hb1 Hb]].
    rewrite <- Hn', Hocc, <- Hb1. apply Hle, Hb.
  - rewrite <- Hmax.
    assert (In (report_of a) (map fst (count_reports l))) as Hk.
    { apply count_reports_keys. apply in_map. exact Ha. }
    apply in_map_iff in Hk. destruct Hk as [[k' n'] [Hk' Hent]].
    simpl in Hk'. subst k'. pose proof (count_reports_entry _ _ _ Hent) as Hn.
    subst n'. apply Hub. apply in_map_iff.
    exists (report_of a, occurrences (report_of a) l). auto.
Qed.

(** ** The majority tuple *)

Lemma find_snd_fst (g : report -> nat) (M : nat) (c : list (report * nat)) :
  Forall (fun kv => snd kv = g (fst kv)) c ->
  option_map fst (find (fun kv => Nat.eqb (snd kv) M) c) =
  find (fun k => Nat.eqb (g k) M) (map fst c).
Proof.
  induction 1 as [|[k n] rest Hkv _ IH]; simpl; [reflexivity|].
  simpl in Hkv. subst n. destruct (Nat.eqb (g k) M); [reflexivity|exact IH].
Qed.

Lemma find_fold_add_key (P : report -> bool) l : forall ks,
  find P (fold_left (fun ks a => add_key (report_of a) ks) l ks) =
  match find P ks with
  | Some x => Some x
  | None => find P (map report_of l)
  end.
Proof.
  induction l as [|a l IH]; intros ks; simpl.
  - destruct (find P ks); reflexivity.
  - rewrite IH. unfold add_key.
    destruct (existsb (fun k => report_eqb k (report_of a)) ks) eqn:E.
    + destruct (find P ks) eqn:F; [reflexivity|].
      apply existsb_exists in E. destruct E as [k [Hk Ek]].
      apply report_eqb_eq in Ek. subst k.
      rewrite (find_none _ _ F _ Hk). reflexivity.
    + assert (forall ks', find P (ks' ++ [report_of a]) =
                match find P ks' with
                | Some x => Some x
                | None => if P (report_of a) then Some (report_of a) else None
                end) as Happ.
      { induction ks' as [|k ks' IH']; simpl; [reflexivity|].
        destruct (P k); [reflexivity|exact IH']. }
      rewrite Happ. destruct (find P ks); [reflexivity|].
      destruct (P (report_of a)); reflexivity.
Qed.

Lemma first_with_count_majority l :
  first_with_count (count_reports l) (max_occurrences l) =
  match majority l with
  | Some m => Ok m
  | None => Raise StopIteration
  end.
Proof.
  unfold first_with_count, majority.
  assert (Forall (fun kv => snd kv = (fun k => occurrences k l) (fst kv))
                 (count_reports l)) as HF.
  { apply Forall_forall. intros [k n] Hin. simpl.
    apply count_reports_entry, Hin. }
  pose proof (find_snd_fst _ (max_occurrences l) _ HF) as H. cbv beta in H.
  assert (find (fun k => Nat.eqb (occurrences k l) (max_occurrences l))
               (map fst (count_reports l)) =
          find (fun k => Nat.eqb (occurrences k l) (max_occurrences l))
               (map report_of l)) as H'.
  { unfold count_reports. rewrite fold_count_keys, find_fold_add_key.
    reflexivity. }
  rewrite H' in H.
  destruct (find _ (count_reports l)) as [kv|]; simpl in H; rewrite <- H;
    reflexivity.
Qed.

Lemma majority_exists l : l <> [] -> exists m, majority l = Some m.
Proof.
  intros Hne. destruct (max_occurrences_spec l Hne) as [[a [Ha Hmax]] _].
  unfold majority.
  destruct (find _ (map report_of l)) as [m|] eqn:F; [eauto|].
  pose proof (find_none _ _ F (report_of a) (in_map _ _ _ Ha)) as H.
  simpl in H. rewrite Hmax, Nat.eqb_refl in H. discriminate.
Qed.

(** ** The consolidator *)

(** [_consolidate_assignments] on a non-empty group, in terms of the
    highest occurrence count and the majority tuple. *)
Lemma consolidate_nonempty p l k :
  l <> [] ->
  _consolidate_assignments p l k =
  if Nat.leb 2 (max_occurrences l) then
    match majority l with
    | None => Raise StopIteration
    | Some (price, quantity, currency, in_stock) =>
        legit <- _check_legit_quantity quantity ;;
        if negb legit || price_is_zero price then Ok (None, k)
        else
          a0 <- first_item l ;;
          match quantity with
          | None => Raise TypeError
          | Some q =>
              Ok (Some (mk_Observation (creation_time (hit a0)) price currency q
                          in_stock (h_domain_name (hit a0)) (url_param (hit a0))
                          (uuid4 p k)),
                  S k)
          end
    end
  else Ok (None, k).
Proof.
  intros Hne. unfold _consolidate_assignments.
  destruct l as [|a l']; [congruence|]. cbn [List.length Nat.eqb].
  rewrite py_max_count_reports by exact Hne. cbn [bind].
  unfold MIN_MATCHING_RESULT.
  destruct (Nat.leb 2 (max_occurrences (a :: l'))); [|reflexivity].
  rewrite first_with_count_majority.
  destruct (majority (a :: l')) as [[[[pr q] cur] st]|]; reflexivity.
Qed.

Lemma check_legit_quantity_true q :
  _check_legit_quantity (Some q) = Ok true <-> legit_quantity q.
Proof.
  unfold _check_legit_quantity, legit_quantity. split.
  - intros H. injection H as H. rewrite !andb_true_iff in H.
    destruct H as [[H1 H2] H3].
    apply Z.leb_le in H1. apply Z.leb_le in H2. apply Z.eqb_eq in H3. auto.
  - intros [[H1 H2] H3]. f_equal. rewrite !andb_true_iff.
    rewrite !Z.leb_le, Z.eqb_eq. auto.
Qed.

Lemma check_legit_quantity_false q :
  ~ legit_quantity q -> _check_legit_quantity (Some q) = Ok false.
Proof.
  intros H. destruct (_check_legit_quantity (Some q)) as [[|]|e] eqn:E.
  - apply check_legit_quantity_true in E. contradiction.
  - reflexivity.
  - discriminate.
Qed.

Lemma price_is_zero_true pr : price_is_zero pr = true <-> pr = Some 0%Z.
Proof.
  destruct pr as [z|]; simpl; [|split; discriminate].
  rewrite Z.eqb_eq. split; congruence.
Qed.

Lemma max_occurrences_nonempty l : 1 <= max_occurrences l -> l <> [].
Proof. intros H ->. unfold max_occurrences in H. simpl in H. lia. Qed.

(** C3. For a non-empty group of reports of one task [h]: when the highest
    occurrence count of a tuple (price, quantity, currency, in_stock) is
    below 2 the consolidator returns none; when it is at least 2 and the
    majority tuple has a legitimate quantity and a price other than zero,
    the consolidator returns the observation made of the majority tuple's
    price, quantity, currency and in-stock flag and of the task's creation
    time, URL and domain name. *)
Theorem consolidate_majority_threshold (p : process) (l : list Assignment)
  (k : nat) (h : HIT) :
  l <> [] ->
  Forall (fun a => hit a = h) l ->
  (max_occurrences l < 2 -> _consolidate_assignments p l k = Ok (None, k)) /\
  (forall pr q cur stock,
      2 <= max_occurrences l ->
      majority l = Some (pr, Some q, cur, stock) ->
      legit_quantity q ->
      pr <> Some 0%Z ->
      _consolidate_assignments p l k =
      Ok (Some (mk_Observation (creation_time h) pr cur q stock
                  (h_domain_name h) (url_param h) (uuid4 p k)),
          S k)).
Proof.
  intros Hne Hhit. rewrite (consolidate_nonempty p l k Hne). split.
  - intros Hlt. apply Nat.leb_gt in Hlt. rewrite Hlt. reflexivity.
  - intros pr q cur stock Hge Hmaj Hq Hpr.
    apply Nat.leb_le in Hge. rewrite Hge, Hmaj.
    apply check_legit_quantity_true in Hq. rewrite Hq. cbn [bind negb orb].
    destruct (price_is_zero pr) eqn:Ez.
    + apply price_is_zero_true in Ez. contradiction.
    + destruct l as [|a l']; [congruence|]. cbn [first_item bind].
      inversion Hhit as [|? ? Ha _]; subst. reflexivity.
Qed.

(** C4, as the code has it.  An observation returned by the consolidator
    has a quantity above zero and a price that is not zero (the price may be
    negative or missing); and when the majority tuple, with a count of at
    least 2, has price zero and carries a quantity, the consolidator
    returns none. *)
Theorem consolidate_observation_invariant (p : process) (l : list Assignment)
  (k : nat) :
  (forall o k',
      _consolidate_assignments p l k = Ok (Some o, k') ->
      (0 < quantity o)%Z /\ price_cents o <> Some 0%Z) /\
  (forall q cur stock,
      2 <= max_occurrences l ->
      majority l = Some (Some 0%Z, Some q, cur, stock) ->
      _consolidate_assignments p l k = Ok (None, k)).
Proof.
  split.
  - intros o k' H. destruct l as [|a l']; [discriminate|].
    rewrite consolidate_nonempty in H by discriminate.
    destruct (Nat.leb 2 (max_occurrences (a :: l'))); [|discriminate].
    destruct (majority (a :: l')) as [[[[pr [q|]] cur] st]|]; try discriminate.
    destruct (_check_legit_quantity (Some q)) as [[|]|e] eqn:Eq;
      cbn [bind negb orb] in H; try discriminate.
    destruct (price_is_zero pr) eqn:Ez; [discriminate|].
    cbn [first_item bind] in H. injection H as <- _. simpl.
    apply check_legit_quantity_true in Eq. destruct Eq as [[H5 _] _].
    split; [lia|]. intros Hz. apply price_is_zero_true in Hz. congruence.
  - intros q cur stock Hge Hmaj.
    rewrite consolidate_nonempty by (apply max_occurrences_nonempty; lia).
    apply Nat.leb_le in Hge. rewrite Hge, Hmaj.
    unfold _check_legit_quantity. cbn [bind price_is_zero].
    rewrite Z.eqb_refl, orb_true_r. reflexivity.
Qed.

(** C5. When the majority tuple, with a count of at least 2, has a quantity
    that is not a multiple of 5 or lies outside the range from 5 to 500, the
    consolidator returns none; a quantity that is a multiple of 5 within
    that range, 500 included, passes the quantity check, and an observation
    of that quantity is returned unless the price is zero. *)
Theorem consolidate_quantity_filter (p : process) (l : list Assignment)
  (k : nat) (pr : option Z) (q : Z) (cur : option string) (stock : bool) :
  2 <= max_occurrences l ->
  majority l = Some (pr, Some q, cur, stock) ->
  (((q mod 5 <> 0)%Z \/ (q < 5)%Z \/ (500 < q)%Z) ->
   _consolidate_assignments p l k = Ok (None, k)) /\
  (legit_quantity q ->
   _check_legit_quantity (Some q) = Ok true /\
   (pr <> Some 0%Z ->
    exists o, _consolidate_assignments p l k = Ok (Some o, S k) /\
              quantity o = q)) /\
  legit_quantity 500.
Proof.
  intros Hge Hmaj.
  assert (l <> []) as Hne by (apply max_occurrences_nonempty; lia).
  rewrite (consolidate_nonempty p l k Hne).
  apply Nat.leb_le in Hge. rewrite Hge, Hmaj. split; [|split].
  - intros Hbad. rewrite check_legit_quantity_false; [reflexivity|].
    unfold legit_quantity. lia.
  - intros Hq. pose proof Hq as Hq'. apply check_legit_quantity_true in Hq'.
    split; [exact Hq'|]. intros Hpr. rewrite Hq'. cbn [bind negb orb].
    destruct (price_is_zero pr) eqn:Ez.
    + apply price_is_zero_true in Ez. contradiction.
    + destruct l as [|a l']; [congruence|]. cbn [first_item bind].
      eexists. split; reflexivity.
  - unfold legit_quantity. split; [lia|reflexivity].
Qed.

(** When no tuple reaches a count of 2, or the majority tuple carries a
    quantity, the consolidator returns without raising. *)
Lemma consolidate_returns (p : process) (l : list Assignment) (k : nat) :
  (forall pr cur stock, 2 <= max_occurrences l ->
                        majority l <> Some (pr, None, cur, stock)) ->
  exists r, _consolidate_assignments p l k = Ok r.
Proof.
  intros Hq. destruct l as [|a l']; [eexists; reflexivity|].
  rewrite consolidate_nonempty by discriminate.
  destruct (Nat.leb 2 (max_occurrences (a :: l'))) eqn:Ege;
    [|eexists; reflexivity].
  apply Nat.leb_le in Ege.
  destruct (majority_exists (a :: l')) as [[[[pr q] cur] st] Hm];
    [discriminate|].
  rewrite Hm. destruct q as [q|]; [|exfalso; eapply Hq; eauto].
  unfold _check_legit_quantity. cbn [bind first_item].
  destruct (negb _ || price_is_zero pr); eexists; reflexivity.
Qed.

(** C6, at the failing input.  Two reports that agree on a tuple whose
    quantity is missing make the consolidator raise [TypeError]. *)
Theorem consolidate_missing_quantity_raises :
  _consolidate_assignments sample_process
    [sample_report (Some 1000%Z) None; sample_report (Some 1000%Z) None] 0 =
  Raise TypeError.
Proof. reflexivity. Qed.

(** C10. On an empty list of reports the consolidator returns none and
    draws no identifier. *)
Theorem consolidate_empty (p : process) (k : nat) :
  _consolidate_assignments p [] k = Ok (None, k).
Proof. reflexivity. Qed.

(** ** Prices in dollars *)

Lemma iso_currency_dollar_sign o :
  currency_symbol o = Some "$" -> iso_currency o = Ok "USD".
Proof. intros H. unfold iso_currency. rewrite H. reflexivity. Qed.

(** C8. For an observation whose currency symbol is the dollar sign, or
    whose symbol resolves to USD, the price in USD is the stored price, with
    no conversion, and the unit price in USD is that price divided by the
    quantity. *)
Theorem usd_price_unchanged (o : _Observation) :
  currency_symbol o = Some "$" \/ iso_currency o = Ok "USD" ->
  price_usd o = price o /\
  (forall c, price_cents o = Some c -> quantity o <> 0%Z ->
             unit_price_usd o =
             Ok (float_of_Z c / float_of_Z 100 / float_of_Z (quantity o))%float).
Proof.
  intros H.
  assert (iso_currency o = Ok "USD") as Hiso.
  { destruct H as [H|H]; [apply iso_currency_dollar_sign, H|exact H]. }
  assert (price_usd o = price o) as Hp.
  { unfold price_usd. rewrite Hiso. reflexivity. }
  split; [exact Hp|]. intros c Hc Hq.
  unfold unit_price_usd. rewrite Hp. unfold price. rewrite Hc. cbn [bind].
  apply Z.eqb_neq in Hq. rewrite Hq. reflexivity.
Qed.

(** ** Loops and lists *)

Lemma mapM_total {A B : Type} (f : A -> result B) (g : A -> B) (l : list A) :
  (forall x, In x l -> f x = Ok (g x)) -> mapM f l = Ok (map g l).
Proof.
  induction l as [|x l IH]; intros H; simpl; [reflexivity|].
  rewrite (H x (or_introl eq_refl)). cbn [bind].
  rewrite IH by (intros y Hy; apply H; right; exact Hy). reflexivity.
Qed.

Lemma mapM_ok_inv {A B : Type} (f : A -> result B) (l : list A) (ys : list B) :
  mapM f l = Ok ys -> forall x, In x l -> exists y, f x = Ok y.
Proof.
  revert ys. induction l as [|a l IH]; intros ys H x Hx; [destruct Hx|].
  simpl in H. destruct (f a) as [y|e] eqn:Ea; [|discriminate].
  cbn [bind] in H. destruct (mapM f l) as [ys'|e] eqn:El; [|discriminate].
  destruct Hx as [<-|Hx]; [eauto|]. eapply IH; eauto.
Qed.

Lemma for_each_append {A B : Type} (F : A -> list B)
  (body : A -> list B -> result (list B)) (xs : list A) :
  (forall x s, In x xs -> body x s = Ok (s ++ F x)) ->
  forall s, for_each xs body s = Ok (s ++ List.concat (map F xs)).
Proof.
  induction xs as [|x xs IH]; intros H s; simpl.
  - rewrite app_nil_r. reflexivity.
  - rewrite (H x s (or_introl eq_refl)). cbn [bind].
    rewrite IH by (intros y s' Hy; apply H; right; exact Hy).
    rewrite app_assoc. reflexivity.
Qed.

Lemma for_each_ok_inv {A S : Type} (body : A -> S -> result S) (xs : list A) :
  forall s s', for_each xs body s = Ok s' ->
  forall x, In x xs -> exists s1 s2, body x s1 = Ok s2.
Proof.
  induction xs as [|a xs IH]; intros s s' H x Hx; [destruct Hx|].
  simpl in H. destruct (body a s) as [s1|e] eqn:Ea; [|discriminate].
  cbn [bind] in H. destruct Hx as [<-|Hx]; [eauto|]. eapply IH; eauto.
Qed.

Lemma map_inj_on {A B : Type} (f : A -> B) (l : list A) :
  NoDup (map f l) -> forall x y, In x l -> In y l -> f x = f y -> x = y.
Proof.
  induction l as [|a l IH]; intros Hnd x y Hx Hy Hxy; [destruct Hx|].
  simpl in Hnd. inversion Hnd as [|? ? Hnot Hnd']; subst.
  destruct Hx as [<-|Hx], Hy as [<-|Hy].
  - reflexivity.
  - exfalso. apply Hnot. rewrite Hxy. apply in_map, Hy.
  - exfalso. apply Hnot. rewrite <- Hxy. apply in_map, Hx.
  - apply IH; assumption.
Qed.

Lemma NoDup_map_filter {A B : Type} (f : A -> B) (g : A -> bool) (l : list A) :
  NoDup (map f l) -> NoDup (map f (filter g l)).
Proof.
  induction l as [|a l IH]; intros Hnd; simpl; [constructor|].
  simpl in Hnd. inversion Hnd as [|? ? Hnot Hnd']; subst.
  destruct (g a); [|apply IH, Hnd']. simpl. constructor; [|apply IH, Hnd'].
  intros Hin. apply Hnot. apply in_map_iff in Hin.
  destruct Hin as [x [Hx Hin]]. apply filter_In in Hin.
  apply in_map_iff. exists x. tauto.
Qed.

Lemma filter_true_on {A : Type} (f : A -> bool) (l : list A) :
  (forall x, In x l -> f x = true) -> filter f l = l.
Proof.
  induction l as [|a l IH]; intros H; simpl; [reflexivity|].
  rewrite (H a (or_introl eq_refl)). f_equal. apply IH.
  intros x Hx. apply H. right. exact Hx.
Qed.

Lemma filter_false_on {A : Type} (f : A -> bool) (l : list A) :
  (forall x, In x l -> f x = false) -> filter f l = [].
Proof.
  induction l as [|a l IH]; intros H; simpl; [reflexivity|].
  rewrite (H a (or_introl eq_refl)). apply IH.
  intros x Hx. apply H. right. exact Hx.
Qed.

Lemma filter_comm {A : Type} (f g : A -> bool) (l : list A) :
  filter f (filter g l) = filter g (filter f l).
Proof.
  induction l as [|a l IH]; simpl; [reflexivity|].
  destruct (f a) eqn:Ef, (g a) eqn:Eg; simpl; rewrite ?Ef, ?Eg, IH; reflexivity.
Qed.

Lemma concat_map_nil {A B : Type} (l : list A) :
  List.concat (map (fun _ => @nil B) l) = [].
Proof. induction l; simpl; auto. Qed.

(** Splitting a list into the buckets of a duplicate-free list of keys that
    covers it, and joining the buckets again, rearranges the list. *)
Lemma concat_buckets_perm {A K : Type} (inb : K -> A -> bool) (ks : list K)
  (l : list A) :
  NoDup ks ->
  (forall x k1 k2, inb k1 x = true -> inb k2 x = true -> k1 = k2) ->
  (forall x, In x l -> exists k, In k ks /\ inb k x = true) ->
  Permutation (List.concat (map (fun k => filter (inb k) l) ks)) l.
Proof.
  intros Hnd Huniq. induction l as [|x l IH]; intros Hcov.
  - simpl. rewrite concat_map_nil. constructor.
  - destruct (Hcov x (or_introl eq_refl)) as [k0 [Hk0 Hx]].
    apply in_split in Hk0. destruct Hk0 as [k1 [k2 ->]].
    assert (forall k, In k k1 \/ In k k2 -> inb k x = false) as Hother.
    { intros k Hk. destruct (inb k x) eqn:E; [|reflexivity].
      pose proof (Huniq x k k0 E Hx) as ->.
      apply NoDup_remove_2 in Hnd. exfalso. apply Hnd.
      apply in_or_app. exact Hk. }
    assert (forall ks', (forall k, In k ks' -> inb k x = false) ->
              map (fun k => filter (inb k) (x :: l)) ks' =
              map (fun k => filter (inb k) l) ks') as Hmap.
    { intros ks' H. apply map_ext_in. intros k Hk. simpl.
      rewrite (H k Hk). reflexivity. }
    specialize (IH (fun y Hy => Hcov y (or_intror Hy))).
    rewrite map_app, concat_app in IH |- *. cbn [map List.concat] in IH |- *.
    rewrite (Hmap k1) by (intros k Hk; apply Hother; auto).
    rewrite (Hmap k2) by (intros k Hk; apply Hother; auto).
    cbn [filter]. rewrite Hx. cbn [app].
    apply Permutation_sym. etransitivity.
    + apply perm_skip. apply Permutation_sym. exact IH.
    + apply Permutation_middle.
Qed.

Lemma NoDup_list_prod' {A B : Type} (l1 : list A) (l2 : list B) :
  NoDup l1 -> NoDup l2 -> NoDup (list_prod l1 l2).
Proof.
  intros H1 H2. induction H1 as [|a l1 Hnot _ IH]; simpl; [constructor|].
  apply NoDup_app; [| exact IH |].
  - clear -H2. induction H2 as [|b l2 Hnot _ IH2]; simpl; constructor; auto.
    intros Hin. apply in_map_iff in Hin. destruct Hin as [y [Hy Hin]].
    injection Hy as ->. contradiction.
  - intros [x y] Hin Hin'. apply in_map_iff in Hin.
    destruct Hin as [y' [Hy' _]]. injection Hy' as <- ->.
    apply in_prod_iff in Hin'. destruct Hin' as [Hx _]. contradiction.
Qed.

Lemma set_iter_In p l x : set_iter_ok p -> In x (set_iter p l) <-> In x l.
Proof. intros H. apply H. Qed.

Lemma set_iter_NoDup p l : set_iter_ok p -> NoDup (set_iter p l).
Proof. intros H. apply H. Qed.

(** ** The outlier filter *)

Lemma in_bucket_true m d o :
  in_bucket m d o = true <-> marketplace o = m /\ date_str o = d.
Proof.
  unfold in_bucket. rewrite andb_true_iff, !String.eqb_eq. reflexivity.
Qed.

Lemma unit_price_or_nan_ok o :
  (exists u, unit_price_usd o = Ok u) ->
  unit_price_usd o = Ok (unit_price_or_nan o).
Proof. intros [u H]. unfold unit_price_or_nan. rewrite H. reflexivity. Qed.

Lemma mapM_unit_price l :
  priced l -> mapM unit_price_usd l = Ok (map unit_price_or_nan l).
Proof.
  intros H. apply mapM_total. intros o Ho. apply unit_price_or_nan_ok, H, Ho.
Qed.

Lemma priced_filter f l : priced l -> priced (filter f l).
Proof. intros H o Ho. apply filter_In in Ho. apply H, Ho. Qed.

Lemma zscore_zscore_of xs : zscore xs = map (fun x => zscore_of x xs) xs.
Proof. reflexivity. Qed.

Lemma map_snd_combine {A B C : Type} (f : A -> B) (g : A -> C) (l : list A) :
  map snd (combine (map f l) (map g l)) = map g l.
Proof. induction l; simpl; congruence. Qed.

(** The index labels of the rows of the frame that satisfy the condition
    are the identifiers of the observations that satisfy it. *)
Lemma allowed_index {A I V : Type} (i : A -> I) (v : A -> V) (h : A -> bool)
  (l : list A) :
  map (fun ic : I * V * bool => fst (fst ic))
      (filter snd (combine (combine (map i l) (map v l)) (map h l))) =
  map i (filter h l).
Proof.
  induction l as [|a l IH]; simpl; [reflexivity|].
  destruct (h a); simpl; rewrite IH; reflexivity.
Qed.

(** Selecting by identifier selects by condition, identifiers being
    distinct. *)
Lemma filter_by_uuid (h : _Observation -> bool) (l : list _Observation) :
  NoDup (map uuid l) ->
  filter (fun o => existsb (String.eqb (uuid o)) (map uuid (filter h l))) l =
  filter h l.
Proof.
  intros Hnd. apply filter_ext_in. intros o Ho.
  destruct (h o) eqn:Eh.
  - apply existsb_exists. exists (uuid o). split; [|apply String.eqb_refl].
    apply in_map, filter_In. auto.
  - destruct (existsb _ _) eqn:E; [|reflexivity].
    apply existsb_exists in E. destruct E as [u [Hu Eu]].
    apply String.eqb_eq in Eu. subst u. apply in_map_iff in Hu.
    destruct Hu as [o' [Hid Ho']]. apply filter_In in Ho'.
    destruct Ho' as [Ho' Hh'].
    pose proof (map_inj_on uuid l Hnd o' o Ho' Ho Hid) as ->. congruence.
Qed.

Lemma bucket_of_member obs m d o :
  in_bucket m d o = true -> bucket_of obs o = filter (in_bucket m d) obs.
Proof.
  intros H. apply in_bucket_true in H. destruct H as [Hm Hd].
  unfold bucket_of. rewrite Hm, Hd. reflexivity.
Qed.

(** One pass of the loop of [_filter_outliers] appends what is to be kept
    of the bucket. *)
Lemma filter_bucket_spec obs m d results :
  NoDup (map uuid obs) ->
  priced obs ->
  filter_bucket obs (m, d) results =
  Ok (results ++ filter (retained obs) (filter (in_bucket m d) obs)).
Proof.
  intros Hnd Hpr. unfold filter_bucket.
  set (curr := filter (in_bucket m d) obs).
  rewrite (mapM_unit_price curr) by (apply priced_filter, Hpr). cbn [bind].
  rewrite length_map.
  assert (forall o, In o curr -> bucket_of obs o = curr) as Hb.
  { intros o Ho. apply filter_In in Ho. apply bucket_of_member, Ho. }
  destruct (Nat.ltb (List.length curr) 3) eqn:Elen.
  - f_equal. f_equal. symmetry. apply filter_true_on. intros o Ho.
    unfold retained. rewrite (Hb o Ho), Elen. reflexivity.
  - f_equal. f_equal.
    rewrite map_snd_combine, zscore_zscore_of, !map_map.
    rewrite (allowed_index uuid unit_price_or_nan
               (fun o => (PrimFloat.abs
                            (zscore_of (unit_price_or_nan o)
                                       (map unit_price_or_nan curr))
                          <? float_of_Z OUTLIER_THRESHOLD)%float) curr).
    rewrite filter_by_uuid by (apply NoDup_map_filter, Hnd).
    apply filter_ext_in. intros o Ho.
    unfold retained. rewrite (Hb o Ho), Elen. reflexivity.
Qed.

(** The result of the filter, bucket by bucket in the order of the loop. *)
Lemma filter_outliers_buckets p obs :
  NoDup (map uuid obs) ->
  priced obs ->
  _filter_outliers p obs =
  Ok (List.concat
        (map (fun md => filter (retained obs)
                               (filter (in_bucket (fst md) (snd md)) obs))
             (list_prod (set_iter p (map marketplace obs))
                        (set_iter p (map date_str obs))))).
Proof.
  intros Hnd Hpr. unfold _filter_outliers.
  rewrite (for_each_append
             (fun md => filter (retained obs)
                               (filter (in_bucket (fst md) (snd md)) obs))).
  - reflexivity.
  - intros [m d] s _. apply filter_bucket_spec; assumption.
Qed.

Lemma in_bucket_unique o (k1 k2 : string * string) :
  in_bucket (fst k1) (snd k1) o = true ->
  in_bucket (fst k2) (snd k2) o = true -> k1 = k2.
Proof.
  destruct k1 as [m1 d1], k2 as [m2 d2]. simpl. intros H1 H2.
  apply in_bucket_true in H1. apply in_bucket_true in H2.
  destruct H1 as [<- <-], H2 as [<- <-]. reflexivity.
Qed.

Lemma buckets_cover p (obs l : list _Observation) :
  set_iter_ok p ->
  (forall o, In o l -> In o obs) ->
  forall o, In o l ->
  exists k, In k (list_prod (set_iter p (map marketplace obs))
                            (set_iter p (map date_str obs))) /\
            in_bucket (fst k) (snd k) o = true.
Proof.
  intros Hset Hsub o Ho. exists (marketplace o, date_str o). split.
  - apply in_prod_iff. split; apply Hset; apply in_map, Hsub, Ho.
  - apply in_bucket_true. auto.
Qed.

Lemma buckets_NoDup p obs :
  set_iter_ok p ->
  NoDup (list_prod (set_iter p (map marketplace obs))
                   (set_iter p (map date_str obs))).
Proof. intros Hset. apply NoDup_list_prod'; apply Hset. Qed.

(** The buckets of the loop, joined, hold what is to be kept of the
    observations. *)
Lemma buckets_joined_perm p obs :
  set_iter_ok p ->
  Permutation
    (List.concat
       (map (fun md => filter (retained obs)
                              (filter (in_bucket (fst md) (snd md)) obs))
            (list_prod (set_iter p (map marketplace obs))
                       (set_iter p (map date_str obs)))))
    (filter (retained obs) obs).
Proof.
  intros Hset. erewrite map_ext; [|intros md; apply filter_comm].
  apply (concat_buckets_perm (fun md => in_bucket (fst md) (snd md))).
  - apply buckets_NoDup, Hset.
  - intros o k1 k2. apply in_bucket_unique.
  - apply (buckets_cover p obs); [exact Hset|].
    intros o Ho. apply filter_In in Ho. apply Ho.
Qed.


(** ** Sorting *)

Lemma insert_sorted_perm {A : Type} (le : A -> A -> bool) x l :
  Permutation (insert_sorted le x l) (x :: l).
Proof.
  induction l as [|y l IH]; simpl; [reflexivity|].
  destruct (le x y); [reflexivity|].
  rewrite IH. apply perm_swap.
Qed.

Lemma isort_perm {A : Type} (le : A -> A -> bool) l :
  Permutation (isort le l) l.
Proof.
  induction l as [|x l IH]; simpl; [reflexivity|].
  rewrite insert_sorted_perm, IH. reflexivity.
Qed.

Lemma insert_sorted_sorted {A : Type} (le : A -> A -> bool) x l :
  (forall a b, le a b = true \/ le b a = true) ->
  Sorted (fun a b => le a b = true) l ->
  Sorted (fun a b => le a b = true) (insert_sorted le x l).
Proof.
  intros Htot. induction l as [|y l IH]; intros Hs; simpl.
  - repeat constructor.
  - destruct (le x y) eqn:E.
    + constructor; [exact Hs|]. constructor. exact E.
    + apply Sorted_inv in Hs. destruct Hs as [Hs Hhd].
      constructor; [apply IH, Hs|].
      destruct l as [|z l]; simpl.
      * constructor. destruct (Htot x y); congruence.
      * destruct (le x z).
        -- constructor. destruct (Htot x y); congruence.
        -- constructor. apply HdRel_inv in Hhd. exact Hhd.
Qed.

Lemma isort_sorted {A : Type} (le : A -> A -> bool) l :
  (forall a b, le a b = true \/ le b a = true) ->
  Sorted (fun a b => le a b = true) (isort le l).
Proof.
  intros Htot. induction l as [|x l IH]; simpl; [constructor|].
  apply insert_sorted_sorted; assumption.
Qed.

Lemma string_compare_lt_trans : forall s1 s2 s3,
  String.compare s1 s2 = Lt -> String.compare s2 s3 = Lt ->
  String.compare s1 s3 = Lt.
Proof.
  induction s1 as [|a s1 IH]; intros [|b s2] [|c s3]; simpl;
    try discriminate; auto.
  intros H1 H2.
  destruct (Ascii.compare a b) eqn:Eab; try discriminate.
  - apply Ascii.compare_eq_iff in Eab. subst b.
    destruct (Ascii.compare a c); try discriminate; auto.
    eapply IH; eauto.
  - destruct (Ascii.compare b c) eqn:Ebc; try discriminate.
    + apply Ascii.compare_eq_iff in Ebc. subst c. rewrite Eab. reflexivity.
    + assert (Ascii.compare a c = Lt) as ->; [|reflexivity].
      unfold Ascii.compare in *. rewrite N.compare_lt_iff in *. lia.
Qed.

Lemma string_leb_trans s1 s2 s3 :
  String.leb s1 s2 = true -> String.leb s2 s3 = true -> String.leb s1 s3 = true.
Proof.
  unfold String.leb. intros H1 H2.
  destruct (String.compare s1 s2) eqn:E1; try discriminate.
  - apply String.compare_eq_iff in E1. subst s2. exact H2.
  - destruct (String.compare s2 s3) eqn:E2; try discriminate.
    + apply String.compare_eq_iff in E2. subst s3. rewrite E1. reflexivity.
    + rewrite (string_compare_lt_trans _ _ _ E1 E2). reflexivity.
Qed.

Lemma string_leb_refl s : String.leb s s = true.
Proof. destruct (String.leb_total s s); assumption. Qed.

Lemma strongly_sorted_last {A : Type} (R : A -> A -> Prop) l x :
  StronglySorted R (l ++ [x]) -> Forall (fun y => R y x) l.
Proof.
  induction l as [|a l IH]; intros H; [constructor|].
  simpl in H. apply StronglySorted_inv in H. destruct H as [H Hall].
  constructor; [|apply IH, H].
  rewrite Forall_forall in Hall. apply Hall. apply in_or_app. right. simpl. auto.
Qed.

(** The last element of a sorted list of strings is the greatest. *)
Lemma last_sorted_is_latest ds :
  ds <> [] -> exists d, last_item (py_sorted ds) = Ok d /\ is_latest d ds.
Proof.
  intros Hne. unfold last_item, py_sorted.
  pose proof (isort_perm String.leb ds) as Hperm.
  pose proof (isort_sorted String.leb ds String.leb_total) as Hsort.
  destruct (rev (isort String.leb ds)) as [|d r] eqn:Erev.
  - exfalso. apply Hne. apply Permutation_nil.
    rewrite <- (rev_involutive (isort String.leb ds)), Erev in Hperm.
    simpl in Hperm. exact Hperm.
  - exists d. split; [reflexivity|].
    assert (isort String.leb ds = rev r ++ [d]) as Eq.
    { rewrite <- (rev_involutive (isort String.leb ds)), Erev. reflexivity. }
    rewrite Eq in Hperm, Hsort. split.
    + eapply Permutation_in; [exact Hperm|]. apply in_or_app. right. simpl. auto.
    + intros d' Hd'. apply Permutation_sym in Hperm.
      pose proof (Permutation_in _ Hperm Hd') as Hin.
      apply in_app_or in Hin. destruct Hin as [Hin|[<-|[]]].
      * apply Sorted_StronglySorted in Hsort.
        -- apply strongly_sorted_last in Hsort.
           rewrite Forall_forall in Hsort. apply Hsort, Hin.
        -- intros a b c. apply string_leb_trans.
      * apply string_leb_refl.
Qed.

Lemma is_latest_unique d1 d2 ds : is_latest d1 ds -> is_latest d2 ds -> d1 = d2.
Proof.
  intros [Hin1 Hub1] [Hin2 Hub2]. apply String.leb_antisym; auto.
Qed.

(** ** Files *)

Lemma find_app {A : Type} (f : A -> bool) (l1 l2 : list A) :
  find f (l1 ++ l2) =
  match find f l1 with
  | Some x => Some x
  | None => find f l2
  end.
Proof.
  induction l1 as [|a l1 IH]; simpl; [reflexivity|].
  destruct (f a); [reflexivity|exact IH].
Qed.

(** The last write to a path wins. *)
Lemma read_file_app fs w path :
  read_file (fs ++ w) path =
  match read_file w path with
  | Some c => Some c
  | None => read_file fs path
  end.
Proof.
  unfold read_file. rewrite rev_app_distr, find_app.
  destruct (find _ (rev w)); reflexivity.
Qed.

Lemma read_file_In fs path c : read_file fs path = Some c -> In (path, c) fs.
Proof.
  unfold read_file. destruct (find _ (rev fs)) as [[q c']|] eqn:F; [|discriminate].
  intros H. injection H as <-. apply find_some in F. destruct F as [Hin Hq].
  simpl in Hq. apply String.eqb_eq in Hq. subst q. apply in_rev, Hin.
Qed.

Lemma read_file_None fs path :
  read_file fs path = None <-> ~ In path (map fst fs).
Proof.
  unfold read_file. split.
  - destruct (find _ (rev fs)) eqn:F; [discriminate|]. intros _ Hin.
    apply in_map_iff in Hin. destruct Hin as [[q c] [Hq Hin]]. simpl in Hq.
    subst q. apply in_rev in Hin. pose proof (find_none _ _ F _ Hin) as H.
    simpl in H. rewrite String.eqb_refl in H. discriminate.
  - intros Hnot. destruct (find _ (rev fs)) as [[q c]|] eqn:F; [|reflexivity].
    exfalso. apply Hnot. apply find_some in F. destruct F as [Hin Hq].
    simpl in Hq. apply String.eqb_eq in Hq. subst q.
    apply in_map_iff. exists (path, c). split; [reflexivity|].
    apply in_rev, Hin.
Qed.

(** Among files with distinct paths, a path reads as the one file that
    carries it. *)
Lemma read_file_NoDup fs path c :
  NoDup (map fst fs) -> In (path, c) fs -> read_file fs path = Some c.
Proof.
  intros Hnd Hin. destruct (read_file fs path) as [c'|] eqn:R.
  - apply read_file_In in R.
    pose proof (map_inj_on fst fs Hnd (path, c') (path, c) R Hin eq_refl) as H.
    congruence.
  - apply read_file_None in R. exfalso. apply R.
    apply in_map_iff. exists (path, c). auto.
Qed.

Lemma string_length_append (s t : string) :
  String.length (s ++ t) = String.length s + String.length t.
Proof. induction s as [|a s IH]; simpl; [reflexivity|]. rewrite IH. reflexivity. Qed.

Lemma append_inj_l (t : string) :
  forall s1 s2 : string, (s1 ++ t = s2 ++ t)%string -> s1 = s2.
Proof.
  induction s1 as [|a s1 IH]; intros [|b s2] H; simpl in H.
  - reflexivity.
  - exfalso. apply (f_equal String.length) in H. simpl in H.
    rewrite string_length_append in H. lia.
  - exfalso. apply (f_equal String.length) in H. simpl in H.
    rewrite string_length_append in H. lia.
  - injection H as -> H. f_equal. apply IH, H.
Qed.

Lemma NoDup_map_inj {A B : Type} (f : A -> B) (l : list A) :
  (forall x y, f x = f y -> x = y) -> NoDup l -> NoDup (map f l).
Proof.
  intros Hinj Hnd. induction Hnd as [|a l Hnot _ IH]; simpl; constructor; auto.
  intros Hin. apply in_map_iff in Hin. destruct Hin as [x [Hx Hin]].
  apply Hinj in Hx. subst x. contradiction.
Qed.

(** ** The latest-snapshot export *)

Lemma for_each_cond_append {A B C : Type} (c : A -> bool) (f : A -> result B)
  (f' : A -> B) (g : A -> B -> C) (l : list A) :
  (forall x, In x l -> f x = Ok (f' x)) ->
  forall s,
    for_each l
      (fun x items => if c x then u <- f x ;; Ok (items ++ [g x u]) else Ok items)
      s =
    Ok (s ++ map (fun x => g x (f' x)) (filter c l)).
Proof.
  induction l as [|a l IH]; intros H s; simpl.
  - rewrite app_nil_r. reflexivity.
  - assert (forall x, In x l -> f x = Ok (f' x)) as H'
      by (intros x Hx; apply H; right; exact Hx).
    destruct (c a).
    + rewrite (H a (or_introl eq_refl)). cbn [bind]. rewrite (IH H').
      simpl. rewrite <- app_assoc. reflexivity.
    + cbn [bind]. apply IH, H'.
Qed.

Lemma filter_date_marketplace m d obs :
  filter (fun o => String.eqb (date_str o) d)
         (filter (fun o => String.eqb (marketplace o) m) obs) =
  filter (in_bucket m d) obs.
Proof.
  induction obs as [|o obs IH]; [reflexivity|]. cbn [filter].
  change (in_bucket m d o)
    with (String.eqb (marketplace o) m && String.eqb (date_str o) d).
  destruct (String.eqb (marketplace o) m); cbn [filter andb]; [|exact IH].
  destruct (String.eqb (date_str o) d); rewrite IH; reflexivity.
Qed.

Lemma dates_of_nonempty m obs :
  In m (map marketplace obs) -> dates_of m obs <> [].
Proof.
  intros Hin Hnil. apply in_map_iff in Hin. destruct Hin as [o [Hm Ho]].
  assert (In (date_str o) (dates_of m obs)) as H.
  { unfold dates_of. apply in_map, filter_In. split; [exact Ho|].
    apply String.eqb_eq, Hm. }
  rewrite Hnil in H. exact H.
Qed.

Lemma latest_date_spec m obs :
  In m (map marketplace obs) ->
  last_item (py_sorted (dates_of m obs)) = Ok (latest_date m obs) /\
  is_latest (latest_date m obs) (dates_of m obs).
Proof.
  intros Hin.
  destruct (last_sorted_is_latest _ (dates_of_nonempty m obs Hin)) as [d [Hd Hl]].
  unfold latest_date. rewrite Hd. auto.
Qed.

(** The file [_export_latest_marketplace] writes. *)
Lemma export_latest_marketplace_spec obs m out :
  priced obs ->
  In m (map marketplace obs) ->
  _export_latest_marketplace obs m out =
  Ok (write_file (fst (latest_file obs m)) (snd (latest_file obs m)) out).
Proof.
  intros Hpr Hin. unfold _export_latest_marketplace.
  destruct (latest_date_spec m obs Hin) as [Hlast [Hd _]].
  change (map date_str (filter (fun o => String.eqb (marketplace o) m) obs))
    with (dates_of m obs).
  rewrite Hlast. cbn [bind].
  rewrite (for_each_cond_append _ unit_price_usd unit_price_or_nan
             (fun o u => (url o, u))).
  2:{ intros o Ho. apply unit_price_or_nan_ok, Hpr.
      apply filter_In in Ho. apply Ho. }
  cbn [bind app]. rewrite filter_date_marketplace.
  change (map (fun x => (url x, unit_price_or_nan x))
              (filter (in_bucket m (latest_date m obs)) obs))
    with (latest_rows m (latest_date m obs) obs).
  unfold latest_file. cbn [fst snd].
  destruct (latest_rows m (latest_date m obs) obs) as [|r rs] eqn:E;
    [|reflexivity].
  exfalso. unfold dates_of in Hd. apply in_map_iff in Hd.
  destruct Hd as [o [Hdo Ho]]. apply filter_In in Ho. destruct Ho as [Ho Hm].
  assert (In (latest_row o) (latest_rows m (latest_date m obs) obs)) as H.
  { unfold latest_rows. apply in_map, filter_In. split; [exact Ho|].
    apply in_bucket_true. apply String.eqb_eq in Hm. auto. }
  rewrite E in H. exact H.
Qed.

Lemma concat_map_singleton {A B : Type} (f : A -> B) (l : list A) :
  List.concat (map (fun x => [f x]) l) = map f l.
Proof. induction l; simpl; congruence. Qed.

(** The files [_export_latest_observations] adds to the directory. *)
Lemma export_latest_observations_spec p obs out :
  set_iter_ok p ->
  priced obs ->
  _export_latest_observations p obs out =
  Ok (out ++ map (latest_file obs) (set_iter p (map marketplace obs))).
Proof.
  intros Hset Hpr. unfold _export_latest_observations.
  rewrite (for_each_append (fun m => [latest_file obs m])).
  - rewrite concat_map_singleton. reflexivity.
  - intros m s Hm. apply (proj1 (set_iter_In p _ m Hset)) in Hm.
    rewrite export_latest_marketplace_spec by assumption. reflexivity.
Qed.

Lemma latest_paths_NoDup obs ms :
  NoDup ms -> NoDup (map fst (map (latest_file obs) ms)).
Proof.
  intros Hnd. rewrite map_map. simpl.
  apply NoDup_map_inj; [|exact Hnd]. intros x y. apply append_inj_l.
Qed.

(** C9. For every marketplace of the observations, the latest-snapshot
    file holds exactly the (URL, unit price in USD) rows of the
    observations of that marketplace whose date string is the
    lexicographic maximum of the marketplace's date strings, and the rows
    are in ascending order of unit price. *)
Theorem export_latest_spec (p : process) (obs : list _Observation)
  (out : out_dir) :
  set_iter_ok p ->
  priced obs ->
  exists out',
    _export_latest_observations p obs out = Ok out' /\
    forall m, In m (map marketplace obs) ->
      exists latest rs,
        read_file out' (m ++ "_latest.csv")%string =
          Some (mk_csv ("Url", "Unit_Price_$") rs) /\
        is_latest latest (dates_of m obs) /\
        Permutation rs (latest_rows m latest obs) /\
        Sorted rows_by_float rs.
Proof.
  intros Hset Hpr. eexists. split.
  - apply export_latest_observations_spec; assumption.
  - intros m Hm. exists (latest_date m obs).
    exists (sort_values_float (latest_rows m (latest_date m obs) obs)).
    split; [|split; [|split]].
    + rewrite read_file_app.
      rewrite (read_file_NoDup _ (fst (latest_file obs m))
                 (snd (latest_file obs m))).
      * reflexivity.
      * apply latest_paths_NoDup, set_iter_NoDup, Hset.
      * apply in_map_iff. exists m. split; [reflexivity|].
        apply set_iter_In; assumption.
    + apply latest_date_spec, Hm.
    + apply sort_values_float_perm.
    + apply sort_values_float_sorted.
Qed.

(** ** Dictionaries of lists *)

Section Dict.

Context {K V : Type} (eqb : K -> K -> bool).
Hypothesis eqb_eq : forall a b, eqb a b = true <-> a = b.

Lemma dict_eqb_refl k : eqb k k = true.
Proof. apply eqb_eq. reflexivity. Qed.

Lemma dict_append_keys (k : K) (v : V) d :
  map fst (dict_append eqb k v d) = add_key_by eqb k (map fst d).
Proof.
  unfold add_key_by. induction d as [|[k' vs] rest IH]; simpl; [reflexivity|].
  destruct (eqb k' k); simpl; [reflexivity|].
  rewrite IH. destruct (existsb _ (map fst rest)); reflexivity.
Qed.

Lemma dict_append_get (k : K) (v : V) d k' :
  dict_get eqb (dict_append eqb k v d) k' =
  if eqb k k' then dict_get eqb d k' ++ [v] else dict_get eqb d k'.
Proof.
  unfold dict_get. induction d as [|[k0 vs] rest IH]; simpl.
  - destruct (eqb k k'); reflexivity.
  - destruct (eqb k0 k) eqn:E0; simpl.
    + apply eqb_eq in E0. subst k0. destruct (eqb k k'); reflexivity.
    + destruct (eqb k0 k') eqn:E1; simpl; [|exact IH].
      apply eqb_eq in E1. subst k0.
      destruct (eqb k k') eqn:E2; [|reflexivity].
      apply eqb_eq in E2. subst k'. rewrite dict_eqb_refl in E0. discriminate.
Qed.

Lemma fold_dict_get (kvs : list (K * V)) : forall d k,
  dict_get eqb
    (fold_left (fun d kv => dict_append eqb (fst kv) (snd kv) d) kvs d) k =
  dict_get eqb d k ++ values_of eqb kvs k.
Proof.
  unfold values_of.
  induction kvs as [|[k0 v] kvs IH]; intros d k; simpl.
  - rewrite app_nil_r. reflexivity.
  - rewrite IH, dict_append_get.
    destruct (eqb k0 k); simpl; [rewrite <- app_assoc|]; reflexivity.
Qed.

Lemma in_add_key_by x k ks : In x (add_key_by eqb k ks) <-> x = k \/ In x ks.
Proof.
  unfold add_key_by. destruct (existsb _ ks) eqn:E.
  - split; [auto|]. intros [->|H]; [|exact H].
    apply existsb_exists in E. destruct E as [k' [Hk Ek]].
    apply eqb_eq in Ek. subst k'. exact Hk.
  - rewrite in_app_iff. simpl. intuition.
Qed.

Lemma NoDup_add_key_by k ks : NoDup ks -> NoDup (add_key_by eqb k ks).
Proof.
  intros H. unfold add_key_by. destruct (existsb _ ks) eqn:E; [exact H|].
  apply NoDup_app; [exact H|repeat constructor; simpl; tauto|].
  intros a Ha [Hk|[]]. subst a.
  assert (existsb (fun k' => eqb k' k) ks = true); [|congruence].
  apply existsb_exists. exists k. split; [exact Ha|apply dict_eqb_refl].
Qed.

Lemma fold_dict_keys (kvs : list (K * V)) : forall d,
  map fst (fold_left (fun d kv => dict_append eqb (fst kv) (snd kv) d) kvs d) =
  fold_left (fun ks kv => add_key_by eqb (fst kv) ks) kvs (map fst d).
Proof.
  induction kvs as [|kv kvs IH]; intros d; simpl; [reflexivity|].
  rewrite IH, dict_append_keys. reflexivity.
Qed.

Lemma fold_add_key_by_NoDup (kvs : list (K * V)) : forall ks,
  NoDup ks -> NoDup (fold_left (fun ks kv => add_key_by eqb (fst kv) ks) kvs ks).
Proof.
  induction kvs as [|kv kvs IH]; intros ks H; simpl; [exact H|].
  apply IH, NoDup_add_key_by, H.
Qed.

Lemma fold_add_key_by_In (kvs : list (K * V)) : forall ks x,
  In x (fold_left (fun ks kv => add_key_by eqb (fst kv) ks) kvs ks) <->
  In x ks \/ In x (map fst kvs).
Proof.
  induction kvs as [|kv kvs IH]; intros ks x; simpl; [tauto|].
  rewrite IH, in_add_key_by. intuition.
Qed.

Lemma group_by_keys_NoDup (kvs : list (K * V)) :
  NoDup (map fst (group_by eqb kvs)).
Proof.
  unfold group_by. rewrite fold_dict_keys.
  apply fold_add_key_by_NoDup. constructor.
Qed.

Lemma group_by_keys_In (kvs : list (K * V)) k :
  In k (map fst (group_by eqb kvs)) <-> In k (map fst kvs).
Proof.
  unfold group_by. rewrite fold_dict_keys, fold_add_key_by_In. simpl. tauto.
Qed.

Lemma dict_get_In (d : list (K * list V)) k vs :
  NoDup (map fst d) -> In (k, vs) d -> dict_get eqb d k = vs.
Proof.
  unfold dict_get. induction d as [|[k' vs'] rest IH]; simpl; [tauto|].
  intros Hnd [Heq|Hin].
  - injection Heq as -> ->. rewrite dict_eqb_refl. reflexivity.
  - inversion Hnd as [|? ? Hnot Hnd']; subst.
    destruct (eqb k' k) eqn:E; [|apply IH; assumption].
    apply eqb_eq in E. subst k'. exfalso. apply Hnot.
    apply in_map_iff. exists (k, vs). split; [reflexivity|exact Hin].
Qed.

(** A dictionary built by appending holds, under each key in order of
    first appearance, the values given under that key. *)
Lemma group_by_entries (kvs : list (K * V)) :
  group_by eqb kvs =
  map (fun k => (k, values_of eqb kvs k)) (map fst (group_by eqb kvs)).
Proof.
  assert (forall kv, In kv (group_by eqb kvs) ->
                     kv = (fst kv, values_of eqb kvs (fst kv))) as H.
  { intros [k vs] Hin. simpl. f_equal.
    rewrite <- (dict_get_In _ _ _ (group_by_keys_NoDup kvs) Hin).
    unfold group_by. rewrite fold_dict_get. reflexivity. }
  induction (group_by eqb kvs) as [|kv d IH]; simpl; [reflexivity|].
  rewrite <- (H kv (or_introl eq_refl)). f_equal.
  apply IH. intros kv' Hin. apply H. right. exact Hin.
Qed.

End Dict.

(** ** The time-series export *)

Lemma for_each_total {A B S : Type} (f : A -> result B) (f' : A -> B)
  (h : A -> B -> S -> S) (l : list A) :
  (forall x, In x l -> f x = Ok (f' x)) ->
  forall s,
    for_each l (fun x s => u <- f x ;; Ok (h x u s)) s =
    Ok (fold_left (fun s x => h x (f' x) s) l s).
Proof.
  induction l as [|a l IH]; intros H s; simpl; [reflexivity|].
  rewrite (H a (or_introl eq_refl)). cbn [bind]. apply IH.
  intros x Hx. apply H. right. exact Hx.
Qed.

Lemma fold_left_ext {A S : Type} (f g : S -> A -> S) (l : list A) :
  (forall s x, f s x = g s x) -> forall s, fold_left f l s = fold_left g l s.
Proof.
  intros H. induction l as [|a l IH]; intros s; simpl; [reflexivity|].
  rewrite H. apply IH.
Qed.

Lemma fold_left_map' {A B S : Type} (f : S -> B -> S) (g : A -> B) (l : list A) :
  forall s, fold_left f (map g l) s = fold_left (fun s x => f s (g x)) l s.
Proof. induction l as [|a l IH]; intros s; simpl; [reflexivity|apply IH]. Qed.

Lemma fold_left_write {A : Type} (file : A -> string * csv) (l : list A) :
  forall out,
    fold_left (fun fs x => write_file (fst (file x)) (snd (file x)) fs) l out =
    out ++ map file l.
Proof.
  induction l as [|a l IH]; intros out; simpl.
  - rewrite app_nil_r. reflexivity.
  - rewrite IH. unfold write_file. rewrite <- app_assoc.
    destruct (file a). reflexivity.
Qed.

(** The files [_export_timeseries] adds to the directory. *)
Lemma export_timeseries_spec obs out :
  priced obs ->
  _export_timeseries obs out =
  Ok (out ++ map timeseries_file (daily_medians_of obs)).
Proof.
  intros Hpr. unfold _export_timeseries.
  rewrite (for_each_total unit_price_usd unit_price_or_nan
             (fun o u d => dict_append pair_eqb (date_str o, marketplace o) u d))
    by (intros o Ho; apply unit_price_or_nan_ok, Hpr, Ho).
  cbn [bind]. f_equal.
  assert (fold_left
            (fun d o => dict_append pair_eqb (date_str o, marketplace o)
                                    (unit_price_or_nan o) d) obs [] =
          daily_unit_prices_of obs) as ->.
  { unfold daily_unit_prices_of, group_by. rewrite fold_left_map'. reflexivity. }
  assert (fold_left
            (fun dm (kv : (string * string) * list float) =>
               let '((date_str, marketplace), unit_prices) := kv in
               dict_append String.eqb marketplace
                           (date_str, np_median unit_prices) dm)
            (daily_unit_prices_of obs) [] =
          daily_medians_of obs) as ->.
  { unfold daily_medians_of, group_by. rewrite fold_left_map'.
    apply fold_left_ext. intros dm [[d m] ups]. reflexivity. }
  rewrite <- fold_left_write. apply fold_left_ext. intros fs [k v]. reflexivity.
Qed.

Lemma pair_eqb_eq (s t : string * string) : pair_eqb s t = true <-> s = t.
Proof.
  destruct s as [a b], t as [c d]. unfold pair_eqb. simpl.
  rewrite andb_true_iff, !String.eqb_eq. split.
  - intros [-> ->]. reflexivity.
  - intros H. injection H as -> ->. auto.
Qed.

Lemma values_of_map {A K V : Type} (eqb : K -> K -> bool) (key : A -> K)
  (val : A -> V) (l : list A) (k : K) :
  values_of eqb (map (fun x => (key x, val x)) l) k =
  map val (filter (fun x => eqb (key x) k) l).
Proof.
  unfold values_of. induction l as [|a l IH]; simpl; [reflexivity|].
  destruct (eqb (key a) k); simpl; rewrite IH; reflexivity.
Qed.

(** An entry of [daily_unit_prices] holds the unit prices of its bucket. *)
Lemma daily_unit_prices_entries obs :
  daily_unit_prices_of obs =
  map (fun k => (k, bucket_prices obs (snd k) (fst k)))
      (map fst (daily_unit_prices_of obs)).
Proof.
  unfold daily_unit_prices_of at 1.
  rewrite (group_by_entries pair_eqb pair_eqb_eq).
  apply map_ext. intros [d m]. f_equal.
  rewrite (values_of_map pair_eqb daily_key unit_price_or_nan).
  unfold bucket_prices. f_equal. apply filter_ext. intros o.
  unfold pair_eqb, daily_key, in_bucket. cbn [fst snd]. apply andb_comm.
Qed.

Lemma daily_keys_NoDup obs : NoDup (map fst (daily_unit_prices_of obs)).
Proof. apply (group_by_keys_NoDup pair_eqb pair_eqb_eq). Qed.

Lemma daily_keys_In obs k :
  In k (map fst (daily_unit_prices_of obs)) <-> In k (map daily_key obs).
Proof.
  unfold daily_unit_prices_of.
  rewrite (group_by_keys_In pair_eqb pair_eqb_eq), map_map. simpl.
  reflexivity.
Qed.

(** The entries of [daily_medians], from the keys of [daily_unit_prices]. *)
Lemma median_entries obs :
  map median_entry (daily_unit_prices_of obs) =
  map (fun k => (snd k, (fst k, np_median (bucket_prices obs (snd k) (fst k)))))
      (map fst (daily_unit_prices_of obs)).
Proof.
  rewrite daily_unit_prices_entries at 1. rewrite map_map. reflexivity.
Qed.

Lemma daily_medians_entries obs :
  daily_medians_of obs =
  map (fun m => (m, values_of String.eqb
                      (map median_entry (daily_unit_prices_of obs)) m))
      (map fst (daily_medians_of obs)).
Proof. apply (group_by_entries String.eqb String.eqb_eq). Qed.

Lemma timeseries_paths_NoDup obs :
  NoDup (map fst (map timeseries_file (daily_medians_of obs))).
Proof.
  rewrite map_map. simpl.
  rewrite <- (map_map fst (fun m => (m ++ "_timeseries.csv")%string)).
  apply NoDup_map_inj; [intros x y; apply append_inj_l|].
  apply (group_by_keys_NoDup String.eqb String.eqb_eq).
Qed.

(** ** Observations without their identifiers *)

Lemma marketplace_erase o : marketplace (erase o) = marketplace o.
Proof. reflexivity. Qed.

Lemma date_str_erase o : date_str (erase o) = date_str o.
Proof. reflexivity. Qed.

Lemma unit_price_usd_erase o : unit_price_usd (erase o) = unit_price_usd o.
Proof. reflexivity. Qed.

Lemma unit_price_or_nan_erase o :
  unit_price_or_nan (erase o) = unit_price_or_nan o.
Proof. reflexivity. Qed.

Lemma latest_row_erase o : latest_row (erase o) = latest_row o.
Proof. reflexivity. Qed.

Lemma in_bucket_erase m d o : in_bucket m d (erase o) = in_bucket m d o.
Proof. reflexivity. Qed.

(** A function that does not read the identifier agrees on observations
    that differ by the identifier only. *)
Lemma erase_congr {B : Type} (f : _Observation -> B) o1 o2 :
  (forall o, f (erase o) = f o) -> erase o1 = erase o2 -> f o1 = f o2.
Proof. intros Hf H. rewrite <- (Hf o1), <- (Hf o2), H. reflexivity. Qed.

Lemma map_erase_congr {B : Type} (f : _Observation -> B) l1 l2 :
  (forall o, f (erase o) = f o) ->
  map erase l1 = map erase l2 -> map f l1 = map f l2.
Proof.
  intros Hf H. transitivity (map f (map erase l1)).
  - rewrite map_map. apply map_ext. intros o. symmetry. apply Hf.
  - rewrite H, map_map. apply map_ext, Hf.
Qed.

Lemma filter_erase_congr (f1 f2 : _Observation -> bool) :
  forall l1 l2,
    map erase l1 = map erase l2 ->
    (forall o1 o2, In o1 l1 -> In o2 l2 -> erase o1 = erase o2 ->
                   f1 o1 = f2 o2) ->
    map erase (filter f1 l1) = map erase (filter f2 l2).
Proof.
  induction l1 as [|a l1 IH]; intros [|b l2] H Hf; try discriminate;
    [reflexivity|].
  cbn [map] in H.
  assert (erase a = erase b) as Hab
      by (apply (f_equal (hd (erase a))) in H; exact H).
  assert (map erase l1 = map erase l2) as Ht
      by (apply (f_equal (@tl _)) in H; exact H).
  cbn [filter].
  rewrite (Hf a b (or_introl eq_refl) (or_introl eq_refl) Hab).
  assert (map erase (filter f1 l1) = map erase (filter f2 l2)) as IH'.
  { apply IH; [exact Ht|]. intros o1 o2 H1 H2. apply Hf; right; assumption. }
  destruct (f2 b); cbn [map]; congruence.
Qed.

Lemma priced_erase l1 l2 : map erase l1 = map erase l2 -> priced l1 -> priced l2.
Proof.
  intros H Hpr o2 Ho2.
  assert (In (erase o2) (map erase l1)) as Hin by (rewrite H; apply in_map, Ho2).
  apply in_map_iff in Hin. destruct Hin as [o1 [He Ho1]].
  rewrite <- (erase_congr unit_price_usd o1 o2 unit_price_usd_erase He).
  apply Hpr, Ho1.
Qed.

(** ** Lists that agree bucket by bucket *)

Lemma same_buckets_sym r1 r2 : same_buckets r1 r2 -> same_buckets r2 r1.
Proof. intros H m d. symmetry. apply H. Qed.

Lemma same_buckets_member r1 r2 o1 :
  same_buckets r1 r2 -> In o1 r1 ->
  exists o2, In o2 r2 /\ erase o2 = erase o1.
Proof.
  intros H Ho1.
  assert (In (erase o1)
             (map erase (filter (in_bucket (marketplace o1) (date_str o1)) r1)))
    as Hin.
  { apply in_map, filter_In. split; [exact Ho1|]. apply in_bucket_true. auto. }
  rewrite H in Hin. apply in_map_iff in Hin. destruct Hin as [o2 [He Ho2]].
  apply filter_In in Ho2. exists o2. tauto.
Qed.

Lemma same_buckets_In {B : Type} (f : _Observation -> B) r1 r2 x :
  (forall o, f (erase o) = f o) ->
  same_buckets r1 r2 -> In x (map f r1) -> In x (map f r2).
Proof.
  intros Hf H Hin. apply in_map_iff in Hin. destruct Hin as [o1 [<- Ho1]].
  destruct (same_buckets_member r1 r2 o1 H Ho1) as [o2 [Ho2 He]].
  rewrite <- (erase_congr f o2 o1 Hf He). apply in_map, Ho2.
Qed.

Lemma same_buckets_prices r1 r2 m d :
  same_buckets r1 r2 -> bucket_prices r1 m d = bucket_prices r2 m d.
Proof.
  intros H. unfold bucket_prices.
  apply map_erase_congr; [apply unit_price_or_nan_erase|apply H].
Qed.

Lemma same_buckets_latest_rows r1 r2 m d :
  same_buckets r1 r2 -> latest_rows m d r1 = latest_rows m d r2.
Proof.
  intros H. unfold latest_rows.
  apply map_erase_congr; [apply latest_row_erase|apply H].
Qed.

Lemma same_buckets_priced r1 r2 : same_buckets r1 r2 -> priced r1 -> priced r2.
Proof.
  intros H Hpr o2 Ho2.
  destruct (same_buckets_member r2 r1 o2 (same_buckets_sym _ _ H) Ho2)
    as [o1 [Ho1 He]].
  rewrite <- (erase_congr unit_price_usd o1 o2 unit_price_usd_erase He).
  apply Hpr, Ho1.
Qed.

Lemma dates_of_In m d obs :
  In d (dates_of m obs) <-> In (d, m) (map daily_key obs).
Proof.
  unfold dates_of, daily_key. rewrite !in_map_iff. split.
  - intros [o [Hd Ho]]. apply filter_In in Ho. destruct Ho as [Ho Hm].
    apply String.eqb_eq in Hm. exists o. split; [congruence|exact Ho].
  - intros [o [Hk Ho]]. injection Hk as Hd Hm. exists o. split; [exact Hd|].
    apply filter_In. split; [exact Ho|]. apply String.eqb_eq, Hm.
Qed.

Lemma same_buckets_latest_date r1 r2 m :
  same_buckets r1 r2 -> In m (map marketplace r1) ->
  latest_date m r1 = latest_date m r2.
Proof.
  intros H Hm.
  assert (In m (map marketplace r2)) as Hm2.
  { apply (same_buckets_In marketplace r1 r2); auto. }
  destruct (latest_date_spec m r1 Hm) as [_ [Hin1 Hub1]].
  destruct (latest_date_spec m r2 Hm2) as [_ [Hin2 Hub2]].
  assert (forall d ra rb, same_buckets ra rb ->
                          In d (dates_of m ra) -> In d (dates_of m rb)) as Hd.
  { intros d ra rb Hab Hin. apply dates_of_In. apply dates_of_In in Hin.
    apply (same_buckets_In daily_key ra rb); auto. }
  apply String.leb_antisym.
  - apply Hub2. apply (Hd _ r1 r2); assumption.
  - apply Hub1. apply (Hd _ r2 r1); [apply same_buckets_sym|]; assumption.
Qed.

Lemma same_buckets_latest_file r1 r2 m :
  same_buckets r1 r2 -> In m (map marketplace r1) ->
  latest_file r1 m = latest_file r2 m.
Proof.
  intros H Hm. unfold latest_file.
  rewrite (same_buckets_latest_date r1 r2 m H Hm).
  rewrite (same_buckets_latest_rows r1 r2 _ _ H). reflexivity.
Qed.

(** The latest-snapshot files of two such lists are the same files,
    whatever the order in which the marketplaces are visited. *)
Lemma same_buckets_latest_files p1 p2 r1 r2 :
  set_iter_ok p1 -> set_iter_ok p2 -> same_buckets r1 r2 ->
  Permutation (map (latest_file r1) (set_iter p1 (map marketplace r1)))
              (map (latest_file r2) (set_iter p2 (map marketplace r2))).
Proof.
  intros H1 H2 H.
  rewrite (map_ext_in (latest_file r1) (latest_file r2)).
  - apply Permutation_map.
    apply NoDup_Permutation; try (apply set_iter_NoDup; assumption).
    intros m. rewrite !set_iter_In by assumption. split.
    + apply same_buckets_In; auto.
    + apply same_buckets_In; [auto|apply same_buckets_sym, H].
  - intros m Hm. apply (proj1 (set_iter_In p1 _ m H1)) in Hm.
    apply same_buckets_latest_file; assumption.
Qed.

(** ** Sorted rows *)

Lemma Permutation_filter' {A : Type} (f : A -> bool) (l l' : list A) :
  Permutation l l' -> Permutation (filter f l) (filter f l').
Proof.
  induction 1 as [|x l l' _ IH|x y l|l l' l'' _ IH1 _ IH2]; simpl.
  - constructor.
  - destruct (f x); [apply perm_skip|]; exact IH.
  - destruct (f x), (f y); try reflexivity. apply perm_swap.
  - etransitivity; eassumption.
Qed.

Lemma NoDup_map_inj_on {A B : Type} (f : A -> B) (l : list A) :
  (forall x y, In x l -> In y l -> f x = f y -> x = y) ->
  NoDup l -> NoDup (map f l).
Proof.
  intros Hinj Hnd. induction Hnd as [|a l Hnot _ IH]; simpl; constructor.
  - intros Hin. apply in_map_iff in Hin. destruct Hin as [x [Hx Hin]].
    apply Hinj in Hx; [|right; exact Hin|left; reflexivity].
    subst x. contradiction.
  - apply IH. intros x y Hx Hy. apply Hinj; right; assumption.
Qed.

Lemma rows_by_str_trans (a b c : row) :
  rows_by_str a b -> rows_by_str b c -> rows_by_str a c.
Proof. unfold rows_by_str. apply string_leb_trans. Qed.

(** Rows with distinct keys have one ascending arrangement. *)
Lemma sorted_rows_unique : forall l1 l2 : list row,
  StronglySorted rows_by_str l1 -> StronglySorted rows_by_str l2 ->
  Permutation l1 l2 -> NoDup (map fst l1) -> l1 = l2.
Proof.
  induction l1 as [|a l1 IH]; intros l2 H1 H2 Hp Hnd.
  - apply Permutation_nil in Hp. congruence.
  - destruct l2 as [|b l2].
    { apply Permutation_sym, Permutation_nil in Hp. discriminate. }
    apply StronglySorted_inv in H1. destruct H1 as [H1 Ha].
    apply StronglySorted_inv in H2. destruct H2 as [H2 Hb].
    simpl in Hnd. inversion Hnd as [|? ? Hnot Hnd']; subst.
    assert (a = b) as ->.
    { pose proof (Permutation_in a Hp (or_introl eq_refl)) as Hina.
      pose proof (Permutation_in b (Permutation_sym Hp) (or_introl eq_refl))
        as Hinb.
      destruct Hina as [Hba|Hina]; [congruence|].
      destruct Hinb as [Hab|Hinb]; [congruence|].
      rewrite Forall_forall in Ha, Hb.
      pose proof (Ha b Hinb) as Hab. pose proof (Hb a Hina) as Hba.
      exfalso. apply Hnot.
      rewrite (String.leb_antisym _ _ Hab Hba). apply in_map, Hinb. }
    f_equal. apply IH; try assumption.
    apply Permutation_cons_inv in Hp. exact Hp.
Qed.

Lemma sort_values_str_unique (l1 l2 : list row) :
  Permutation l1 l2 -> NoDup (map fst l1) ->
  sort_values_str l1 = sort_values_str l2.
Proof.
  intros Hp Hnd. apply sorted_rows_unique.
  - apply Sorted_StronglySorted; [exact rows_by_str_trans|].
    apply sort_values_str_sorted.
  - apply Sorted_StronglySorted; [exact rows_by_str_trans|].
    apply sort_values_str_sorted.
  - rewrite (sort_values_str_perm l1), (sort_values_str_perm l2). exact Hp.
  - apply (Permutation_NoDup (l := map fst l1)); [|exact Hnd].
    apply Permutation_map, Permutation_sym, sort_values_str_perm.
Qed.

(** ** The time-series files of lists that agree bucket by bucket *)

Lemma same_buckets_daily_keys r1 r2 :
  same_buckets r1 r2 ->
  Permutation (map fst (daily_unit_prices_of r1))
              (map fst (daily_unit_prices_of r2)).
Proof.
  intros H. apply NoDup_Permutation; try apply daily_keys_NoDup.
  intros k. rewrite !daily_keys_In. split.
  - apply same_buckets_In; auto.
  - apply same_buckets_In; [auto|apply same_buckets_sym, H].
Qed.

Lemma same_buckets_median_entries r1 r2 :
  same_buckets r1 r2 ->
  Permutation (map median_entry (daily_unit_prices_of r1))
              (map median_entry (daily_unit_prices_of r2)).
Proof.
  intros H. rewrite !median_entries.
  rewrite (map_ext
             (fun k => (snd k, (fst k,
                          np_median (bucket_prices r1 (snd k) (fst k)))))
             (fun k => (snd k, (fst k,
                          np_median (bucket_prices r2 (snd k) (fst k)))))).
  - apply Permutation_map, same_buckets_daily_keys, H.
  - intros k. rewrite (same_buckets_prices r1 r2 _ _ H). reflexivity.
Qed.

(** The rows of one marketplace carry distinct dates. *)
Lemma median_rows_dates_NoDup obs m :
  NoDup (map fst (values_of String.eqb
                    (map median_entry (daily_unit_prices_of obs)) m)).
Proof.
  rewrite median_entries.
  rewrite (values_of_map String.eqb snd
             (fun k => (fst k, np_median (bucket_prices obs (snd k) (fst k))))).
  rewrite map_map. simpl.
  apply NoDup_map_inj_on.
  - intros [d1 m1] [d2 m2] H1 H2 Hd. simpl in Hd.
    apply filter_In in H1. apply filter_In in H2.
    destruct H1 as [_ H1], H2 as [_ H2]. simpl in H1, H2.
    apply String.eqb_eq in H1. apply String.eqb_eq in H2. congruence.
  - apply NoDup_filter, daily_keys_NoDup.
Qed.

Lemma same_buckets_median_rows r1 r2 m :
  same_buckets r1 r2 ->
  Permutation
    (values_of String.eqb (map median_entry (daily_unit_prices_of r1)) m)
    (values_of String.eqb (map median_entry (daily_unit_prices_of r2)) m).
Proof.
  intros H. unfold values_of.
  apply Permutation_map, Permutation_filter', same_buckets_median_entries, H.
Qed.

Lemma same_buckets_timeseries_files r1 r2 :
  same_buckets r1 r2 ->
  Permutation (map timeseries_file (daily_medians_of r1))
              (map timeseries_file (daily_medians_of r2)).
Proof.
  intros H.
  pose proof (daily_medians_entries r1) as E1.
  pose proof (daily_medians_entries r2) as E2.
  assert (Permutation (map fst (daily_medians_of r1))
                      (map fst (daily_medians_of r2))) as HM.
  { apply NoDup_Permutation.
    - apply (group_by_keys_NoDup String.eqb String.eqb_eq).
    - apply (group_by_keys_NoDup String.eqb String.eqb_eq).
    - intros m. unfold daily_medians_of.
      rewrite !(group_by_keys_In String.eqb String.eqb_eq).
      pose proof (Permutation_map fst (same_buckets_median_entries r1 r2 H))
        as Hp.
      split; apply Permutation_in; [exact Hp|apply Permutation_sym, Hp]. }
  set (M1 := map fst (daily_medians_of r1)) in *.
  set (M2 := map fst (daily_medians_of r2)) in *.
  rewrite E1, E2, !map_map.
  etransitivity; [|apply Permutation_map, HM].
  erewrite map_ext; [reflexivity|].
  intros m. unfold timeseries_file. cbn [fst snd]. f_equal. f_equal.
  apply sort_values_str_unique.
  - apply same_buckets_median_rows, H.
  - apply median_rows_dates_NoDup.
Qed.

(** ** Two runs of the consolidation loop *)

Lemma consolidate_step_uuid p l k r k' :
  _consolidate_assignments p l k = Ok (r, k') ->
  (r = None /\ k' = k) \/
  (exists o, r = Some o /\ uuid o = uuid4 p k /\ k' = S k).
Proof.
  destruct l as [|a l'].
  - cbn. intros H. injection H as <- <-. auto.
  - rewrite consolidate_nonempty by discriminate.
    destruct (Nat.leb 2 (max_occurrences (a :: l')));
      [|intros H; injection H as <- <-; auto].
    destruct (majority (a :: l')) as [[[[pr [q|]] cur] st]|]; try discriminate.
    unfold _check_legit_quantity. cbn [bind first_item].
    destruct (negb _ || price_is_zero pr); intros H; injection H as <- <-.
    + auto.
    + right. eexists. split; [reflexivity|]. split; reflexivity.
Qed.

Lemma consolidate_step_process p1 p2 l k1 k2 r1 k1' :
  _consolidate_assignments p1 l k1 = Ok (r1, k1') ->
  exists r2 k2',
    _consolidate_assignments p2 l k2 = Ok (r2, k2') /\
    option_map erase r1 = option_map erase r2.
Proof.
  destruct l as [|a l'].
  - cbn. intros H. injection H as <- <-. eexists. eexists. split; reflexivity.
  - rewrite !consolidate_nonempty by discriminate.
    destruct (Nat.leb 2 (max_occurrences (a :: l')));
      [|intros H; injection H as <- <-; eexists; eexists; split; reflexivity].
    destruct (majority (a :: l')) as [[[[pr [q|]] cur] st]|]; try discriminate.
    unfold _check_legit_quantity. cbn [bind first_item].
    destruct (negb _ || price_is_zero pr); intros H; injection H as <- <-;
      eexists; eexists; split; reflexivity.
Qed.

Lemma consolidate_all_uuids p groups : forall acc k obs k',
  consolidate_all p groups acc k = Ok (obs, k') ->
  map uuid acc = map (uuid4 p) (seq 0 k) ->
  map uuid obs = map (uuid4 p) (seq 0 k').
Proof.
  induction groups as [|g groups IH]; intros acc k obs k' H Hacc.
  - cbn in H. injection H as <- <-. exact Hacc.
  - cbn [consolidate_all] in H.
    destruct (_consolidate_assignments p g k) as [[r k1]|e] eqn:E;
      [|discriminate].
    cbn [bind fst snd] in H.
    destruct (consolidate_step_uuid _ _ _ _ _ E) as [[-> ->]|[o [-> [Ho ->]]]].
    + eapply IH; eauto.
    + eapply IH; [exact H|].
      rewrite map_app, seq_S, map_app, Hacc. cbn [map]. rewrite Ho.
      reflexivity.
Qed.

Lemma consolidate_all_process p1 p2 groups : forall acc1 acc2 k1 k2 obs1 k1',
  map erase acc1 = map erase acc2 ->
  consolidate_all p1 groups acc1 k1 = Ok (obs1, k1') ->
  exists obs2 k2',
    consolidate_all p2 groups acc2 k2 = Ok (obs2, k2') /\
    map erase obs1 = map erase obs2.
Proof.
  induction groups as [|g groups IH]; intros acc1 acc2 k1 k2 obs1 k1' Hacc H.
  - cbn in H. injection H as <- <-. exists acc2, k2. split; [reflexivity|exact Hacc].
  - cbn [consolidate_all] in H |- *.
    destruct (_consolidate_assignments p1 g k1) as [[r1 k1a]|e] eqn:E;
      [|discriminate].
    destruct (consolidate_step_process p1 p2 g k1 k2 r1 k1a E)
      as [r2 [k2a [E2 Hr]]].
    rewrite E2. cbn [bind fst snd] in H |- *.
    destruct r1 as [o1|], r2 as [o2|]; try discriminate.
    + assert (erase o1 = erase o2) as He
          by (cbn [option_map] in Hr; congruence).
      eapply IH; [|exact H]. rewrite !map_app, Hacc. cbn [map].
      rewrite He. reflexivity.
    + eapply IH; [exact Hacc|exact H].
Qed.

Lemma fresh_uuids_NoDup p (obs : list _Observation) k :
  uuid4_fresh p -> map uuid obs = map (uuid4 p) (seq 0 k) -> NoDup (map uuid obs).
Proof.
  intros Hf ->. apply NoDup_map_inj; [exact Hf|apply seq_NoDup].
Qed.

(** ** Two runs of the outlier filter *)

(** The filter returns only when every observation has a unit price. *)
Lemma filter_outliers_ok_priced p obs r :
  set_iter_ok p -> _filter_outliers p obs = Ok r -> priced obs.
Proof.
  intros Hset H o Ho. unfold _filter_outliers in H.
  destruct (for_each_ok_inv _ _ _ _ H (marketplace o, date_str o))
    as [s1 [s2 Hb]].
  { apply in_prod_iff. split; apply set_iter_In; try assumption;
      apply in_map, Ho. }
  unfold filter_bucket in Hb.
  destruct (mapM unit_price_usd
              (filter (in_bucket (marketplace o) (date_str o)) obs))
    as [us|e] eqn:E; [|discriminate].
  apply (mapM_ok_inv _ _ _ E). apply filter_In. split; [exact Ho|].
  apply in_bucket_true. auto.
Qed.

Lemma filter_concat_other {A K : Type} (inb : K -> A -> bool) (F : K -> list A)
  (ks : list K) (k0 : K) :
  (forall k x, In x (F k) -> inb k x = true) ->
  (forall x k1 k2, inb k1 x = true -> inb k2 x = true -> k1 = k2) ->
  ~ In k0 ks ->
  filter (inb k0) (List.concat (map F ks)) = [].
Proof.
  intros HF Huniq Hnot. apply filter_false_on. intros x Hx.
  apply in_concat in Hx. destruct Hx as [l [Hl Hx]].
  apply in_map_iff in Hl. destruct Hl as [k [<- Hk]].
  destruct (inb k0 x) eqn:E; [|reflexivity].
  exfalso. apply Hnot. rewrite (Huniq x k0 k E (HF k x Hx)). exact Hk.
Qed.

Lemma filter_concat_bucket {A K : Type} (inb : K -> A -> bool) (F : K -> list A)
  (ks : list K) (k0 : K) :
  (forall k x, In x (F k) -> inb k x = true) ->
  (forall x k1 k2, inb k1 x = true -> inb k2 x = true -> k1 = k2) ->
  NoDup ks -> In k0 ks ->
  filter (inb k0) (List.concat (map F ks)) = F k0.
Proof.
  intros HF Huniq Hnd Hin. apply in_split in Hin.
  destruct Hin as [ka [kb ->]]. apply NoDup_remove_2 in Hnd.
  rewrite map_app, concat_app. cbn [map List.concat]. rewrite !filter_app.
  rewrite (filter_concat_other inb F ka k0 HF Huniq)
    by (intros Hin; apply Hnd, in_or_app; auto).
  rewrite (filter_concat_other inb F kb k0 HF Huniq)
    by (intros Hin; apply Hnd, in_or_app; auto).
  rewrite app_nil_r. cbn [app]. apply filter_true_on. intros x. apply HF.
Qed.

(** What the filter returns holds, of each bucket, what is to be kept of
    it, in the order of the input. *)
Lemma filter_outliers_bucket p obs r m d :
  set_iter_ok p -> NoDup (map uuid obs) -> priced obs ->
  _filter_outliers p obs = Ok r ->
  filter (in_bucket m d) r =
  filter (retained obs) (filter (in_bucket m d) obs).
Proof.
  intros Hset Hnd Hpr H.
  rewrite (filter_outliers_buckets p obs Hnd Hpr) in H. injection H as <-.
  set (F := fun md : string * string =>
              filter (retained obs) (filter (in_bucket (fst md) (snd md)) obs)).
  set (ks := list_prod (set_iter p (map marketplace obs))
                       (set_iter p (map date_str obs))).
  assert (forall k x, In x (F k) -> in_bucket (fst k) (snd k) x = true) as HF.
  { intros k x Hx. unfold F in Hx. apply filter_In in Hx.
    destruct Hx as [Hx _]. apply filter_In in Hx. apply Hx. }
  assert (forall a b : string * string, {a = b} + {a <> b}) as Hdec
      by (decide equality; apply string_dec).
  destruct (in_dec Hdec (m, d) ks) as [Hin|Hnot].
  - apply (filter_concat_bucket (fun md => in_bucket (fst md) (snd md)) F ks
             (m, d) HF in_bucket_unique (buckets_NoDup p obs Hset) Hin).
  - pose proof (filter_concat_other (fun md => in_bucket (fst md) (snd md)) F ks
                  (m, d) HF in_bucket_unique Hnot) as Hn.
    cbn [fst snd] in Hn. rewrite Hn. symmetry. rewrite (filter_false_on (in_bucket m d) obs); [reflexivity|].
    intros o Ho. destruct (in_bucket m d o) eqn:E; [|reflexivity].
    exfalso. apply Hnot. apply in_bucket_true in E. destruct E as [<- <-].
    apply in_prod_iff. split; apply set_iter_In; try assumption;
      apply in_map, Ho.
Qed.

Lemma retained_congr obs1 obs2 o1 o2 :
  map erase obs1 = map erase obs2 -> erase o1 = erase o2 ->
  retained obs1 o1 = retained obs2 o2.
Proof.
  intros Hobs Ho. unfold retained, bucket_of.
  rewrite (erase_congr marketplace o1 o2 marketplace_erase Ho).
  rewrite (erase_congr date_str o1 o2 date_str_erase Ho).
  rewrite (erase_congr unit_price_or_nan o1 o2 unit_price_or_nan_erase Ho).
  set (f := in_bucket (marketplace o2) (date_str o2)).
  assert (map erase (filter f obs1) = map erase (filter f obs2)) as HB.
  { apply filter_erase_congr; [exact Hobs|]. intros a b _ _ Hab.
    apply (erase_congr f a b); [|exact Hab]. intros o. apply in_bucket_erase. }
  rewrite (map_erase_congr unit_price_or_nan _ _ unit_price_or_nan_erase HB).
  rewrite <- (length_map erase (filter f obs1)), HB, length_map. reflexivity.
Qed.

(** Two runs of the filter on the same observations, identifiers aside,
    return lists that agree bucket by bucket. *)
Lemma filter_outliers_same_buckets p1 p2 obs1 obs2 r1 r2 :
  set_iter_ok p1 -> set_iter_ok p2 ->
  NoDup (map uuid obs1) -> NoDup (map uuid obs2) ->
  priced obs1 -> priced obs2 ->
  map erase obs1 = map erase obs2 ->
  _filter_outliers p1 obs1 = Ok r1 -> _filter_outliers p2 obs2 = Ok r2 ->
  same_buckets r1 r2.
Proof.
  intros Hs1 Hs2 Hn1 Hn2 Hp1 Hp2 He H1 H2 m d.
  rewrite (filter_outliers_bucket p1 obs1 r1 m d Hs1 Hn1 Hp1 H1).
  rewrite (filter_outliers_bucket p2 obs2 r2 m d Hs2 Hn2 Hp2 H2).
  apply filter_erase_congr.
  - apply filter_erase_congr; [exact He|]. intros a b _ _ Hab.
    apply (erase_congr (in_bucket m d) a b); [|exact Hab].
    intros o. apply in_bucket_erase.
  - intros a b _ _ Hab. apply retained_congr; assumption.
Qed.

Lemma filter_outliers_priced p obs r :
  set_iter_ok p -> NoDup (map uuid obs) -> priced obs ->
  _filter_outliers p obs = Ok r -> priced r.
Proof.
  intros Hset Hnd Hpr H o Ho.
  rewrite (filter_outliers_buckets p obs Hnd Hpr) in H. injection H as <-.
  apply (Permutation_in _ (buckets_joined_perm p obs Hset)) in Ho.
  apply filter_In in Ho. apply Hpr, Ho.
Qed.

(** ** The export command *)

(** Directories that hold the same files under distinct paths read alike. *)
Lemma read_file_perm fs1 fs2 path :
  NoDup (map fst fs1) -> Permutation fs1 fs2 ->
  read_file fs1 path = read_file fs2 path.
Proof.
  intros Hnd Hp.
  assert (NoDup (map fst fs2)) as Hnd2.
  { apply (Permutation_NoDup (l := map fst fs1)); [|exact Hnd].
    apply Permutation_map, Hp. }
  destruct (read_file fs1 path) as [c|] eqn:R.
  - symmetry. apply read_file_NoDup; [exact Hnd2|].
    apply (Permutation_in _ Hp). apply read_file_In, R.
  - symmetry. apply read_file_None. apply read_file_None in R.
    intros Hin. apply R.
    apply (Permutation_in _ (Permutation_sym (Permutation_map fst Hp))).
    exact Hin.
Qed.

(** A time-series file and a latest-snapshot file never share a path. *)
Lemma timeseries_path_not_latest : forall m1 m2 : string,
  (m1 ++ "_timeseries.csv")%string <> (m2 ++ "_latest.csv")%string.
Proof.
  induction m1 as [|a m1 IH]; intros m2 H.
  - cbn [append] in H.
    repeat (destruct m2 as [|? m2]; [discriminate H|];
            cbn [append] in H; injection H as _ H).
    destruct m2; discriminate H.
  - destruct m2 as [|b m2].
    + apply (f_equal String.length) in H. cbn [append String.length] in H.
      rewrite string_length_append in H. cbn [String.length] in H. lia.
    + cbn [append] in H. injection H as _ H. exact (IH m2 H).
Qed.

Lemma export_files_paths_NoDup p r :
  set_iter_ok p -> NoDup (map fst (export_files p r)).
Proof.
  intros Hset. unfold export_files. rewrite map_app. apply NoDup_app.
  - apply timeseries_paths_NoDup.
  - apply latest_paths_NoDup, set_iter_NoDup, Hset.
  - intros path H1 H2. rewrite map_map in H1, H2.
    apply in_map_iff in H1. destruct H1 as [[k v] [<- _]].
    apply in_map_iff in H2. destruct H2 as [m [H2 _]].
    cbn [timeseries_file latest_file fst] in H2.
    apply (timeseries_path_not_latest k m). symmetry. exact H2.
Qed.

(** The run returns once the consolidation returns and every consolidated
    observation has a unit price. *)
Lemma export_returns p table obs k :
  set_iter_ok p -> NoDup (map uuid obs) -> priced obs ->
  consolidate_all p (map snd (_fetch_assignments table)) [] 0 = Ok (obs, k) ->
  exists r, _filter_outliers p obs = Ok r /\
            export p table = Ok (export_files p r).
Proof.
  intros Hset Hnd Hpr Hc.
  pose proof (filter_outliers_buckets p obs Hnd Hpr) as Hr.
  eexists. split; [exact Hr|].
  pose proof (filter_outliers_priced p obs _ Hset Hnd Hpr Hr) as Hpr'.
  unfold export. rewrite Hc. cbn [bind fst]. rewrite Hr. cbn [bind].
  rewrite (export_timeseries_spec _ [] Hpr'). cbn [bind app].
  apply export_latest_observations_spec; assumption.
Qed.

(** What a run that returned went through. *)
Lemma export_ok_inv p table out :
  set_iter_ok p -> uuid4_fresh p ->
  export p table = Ok out ->
  exists obs k,
    consolidate_all p (map snd (_fetch_assignments table)) [] 0 = Ok (obs, k) /\
    NoDup (map uuid obs) /\ priced obs.
Proof.
  intros Hset Hfresh H. unfold export in H.
  destruct (consolidate_all p (map snd (_fetch_assignments table)) [] 0)
    as [[obs k]|e] eqn:Hc; [|discriminate].
  cbn [bind fst] in H.
  destruct (_filter_outliers p obs) as [r|e] eqn:Hr; [|discriminate].
  exists obs, k. split; [reflexivity|]. split.
  - apply (fresh_uuids_NoDup p obs k Hfresh).
    apply (consolidate_all_uuids p _ [] 0 obs k Hc). reflexivity.
  - apply (filter_outliers_ok_priced p obs r Hset Hr).
Qed.

(** C7, as the code has it.  Two runs of the export on the same
    assignments table that convert with the same exchange-rate table (the
    one [cc_convert] of both runs), in processes that draw different
    identifiers and iterate their sets in different orders, leave the same
    files with the same contents: when one run returns, the other returns
    too and every path reads alike in the two output directories. *)
Theorem export_deterministic (p1 p2 : process) (table : list Assignment)
  (out : out_dir) :
  set_iter_ok p1 -> set_iter_ok p2 ->
  uuid4_fresh p1 -> uuid4_fresh p2 ->
  export p1 table = Ok out ->
  exists out',
    export p2 table = Ok out' /\
    forall path, read_file out' path = read_file out path.
Proof.
  intros Hs1 Hs2 Hf1 Hf2 H1.
  destruct (export_ok_inv p1 table out Hs1 Hf1 H1)
    as [obs1 [k1 [Hc1 [Hn1 Hp1]]]].
  destruct (consolidate_all_process p1 p2 _ [] [] 0 0 obs1 k1 eq_refl Hc1)
    as [obs2 [k2 [Hc2 He]]].
  assert (NoDup (map uuid obs2)) as Hn2.
  { apply (fresh_uuids_NoDup p2 obs2 k2 Hf2).
    apply (consolidate_all_uuids p2 _ [] 0 obs2 k2 Hc2). reflexivity. }
  pose proof (priced_erase obs1 obs2 He Hp1) as Hp2.
  destruct (export_returns p1 table obs1 k1 Hs1 Hn1 Hp1 Hc1) as [r1 [Hr1 Hx1]].
  destruct (export_returns p2 table obs2 k2 Hs2 Hn2 Hp2 Hc2) as [r2 [Hr2 Hx2]].
  rewrite Hx1 in H1. injection H1 as <-.
  exists (export_files p2 r2). split; [exact Hx2|]. intros path.
  pose proof (filter_outliers_same_buckets p1 p2 obs1 obs2 r1 r2
                Hs1 Hs2 Hn1 Hn2 Hp1 Hp2 He Hr1 Hr2) as Hsame.
  apply read_file_perm; [apply export_files_paths_NoDup, Hs2|].
  unfold export_files. apply Permutation_app.
  - apply same_buckets_timeseries_files, same_buckets_sym, Hsame.
  - apply same_buckets_latest_files; [assumption|assumption|].
    apply same_buckets_sym, Hsame.
Qed.

(** * Further properties of the export *)

(** ** The time-series files *)

Lemma median_rows_of_marketplace obs m :
  values_of String.eqb (map median_entry (daily_unit_prices_of obs)) m =
  map (fun k => (fst k, np_median (bucket_prices obs (snd k) (fst k))))
      (filter (fun k => String.eqb (snd k) m)
              (map fst (daily_unit_prices_of obs))).
Proof.
  rewrite median_entries.
  apply (values_of_map String.eqb snd
           (fun k => (fst k, np_median (bucket_prices obs (snd k) (fst k))))).
Qed.

Lemma median_rows_In obs m d x :
  In (d, x)
     (values_of String.eqb (map median_entry (daily_unit_prices_of obs)) m) <->
  In d (dates_of m obs) /\ x = np_median (bucket_prices obs m d).
Proof.
  rewrite median_rows_of_marketplace, in_map_iff, dates_of_In,
    <- daily_keys_In. split.
  - intros [[d' m'] [Heq Hin]]. apply filter_In in Hin.
    destruct Hin as [Hin Hm]. cbn [fst snd] in Heq, Hm.
    apply String.eqb_eq in Hm. subst m'. injection Heq as -> <-. auto.
  - intros [Hin ->]. exists (d, m). split; [reflexivity|].
    apply filter_In. split; [exact Hin|]. apply String.eqb_refl.
Qed.

Lemma daily_medians_keys_In obs m :
  In m (map fst (daily_medians_of obs)) <-> In m (map marketplace obs).
Proof.
  unfold daily_medians_of.
  rewrite (group_by_keys_In String.eqb String.eqb_eq), median_entries, map_map.
  cbn [fst]. rewrite !in_map_iff. split.
  - intros [[d m'] [Hm Hin]]. cbn [snd] in Hm. subst m'.
    apply daily_keys_In in Hin. apply in_map_iff in Hin.
    destruct Hin as [o [Hk Ho]]. injection Hk as _ Hm. eauto.
  - intros [o [Hm Ho]]. exists (date_str o, m). split; [reflexivity|].
    apply daily_keys_In. apply in_map_iff. exists o.
    split; [|exact Ho]. unfold daily_key. rewrite Hm. reflexivity.
Qed.

(** X8. The time-series file of a marketplace holds one row for each date on
    which the marketplace has observations, the median of the unit prices of
    that day beside the date, in ascending order of the date strings. *)
Theorem export_timeseries_rows (obs : list _Observation) (out : out_dir) :
  priced obs ->
  exists out',
    _export_timeseries obs out = Ok out' /\
    forall m, In m (map marketplace obs) ->
      exists rs,
        read_file out' (m ++ "_timeseries.csv")%string =
          Some (mk_csv ("Date", "Median_Unit_Price_$") rs) /\
        Sorted rows_by_str rs /\
        NoDup (map fst rs) /\
        (forall d x, In (d, x) rs <->
                     In d (dates_of m obs) /\
                     x = np_median (bucket_prices obs m d)).
Proof.
  intros Hpr. eexists. split; [apply export_timeseries_spec, Hpr|].
  intros m Hm.
  set (V := values_of String.eqb (map median_entry (daily_unit_prices_of obs)) m).
  exists (sort_values_str V). split; [|split; [|split]].
  - rewrite read_file_app.
    rewrite (read_file_NoDup _ (m ++ "_timeseries.csv")%string
               (mk_csv ("Date", "Median_Unit_Price_$") (sort_values_str V))).
    + reflexivity.
    + apply timeseries_paths_NoDup.
    + rewrite daily_medians_entries, map_map. apply in_map_iff.
      exists m. split; [reflexivity|]. apply daily_medians_keys_In, Hm.
  - apply sort_values_str_sorted.
  - apply (Permutation_NoDup (l := map fst V)).
    + apply Permutation_map, Permutation_sym, sort_values_str_perm.
    + apply median_rows_dates_NoDup.
  - intros d x. rewrite <- median_rows_In. fold V. split.
    + apply Permutation_in, sort_values_str_perm.
    + apply Permutation_in, Permutation_sym, sort_values_str_perm.
Qed.

(** X13. An exporter only adds files: a path that is not the file of one of
    the marketplaces reads as before the call. *)
Theorem exporters_keep_other_files (p : process) (obs : list _Observation)
  (out : out_dir) (path : string) :
  set_iter_ok p ->
  priced obs ->
  (forall m, In m (map marketplace obs) ->
             path <> (m ++ "_timeseries.csv")%string /\
             path <> (m ++ "_latest.csv")%string) ->
  exists out1 out2,
    _export_timeseries obs out = Ok out1 /\
    _export_latest_observations p obs out1 = Ok out2 /\
    read_file out1 path = read_file out path /\
    read_file out2 path = read_file out path.
Proof.
  intros Hset Hpr Hpath. eexists. eexists.
  split; [apply export_timeseries_spec, Hpr|].
  split; [apply export_latest_observations_spec; assumption|].
  assert (read_file (map timeseries_file (daily_medians_of obs)) path = None)
    as Hts.
  { apply read_file_None. rewrite map_map. intros Hin.
    apply in_map_iff in Hin. destruct Hin as [[k v] [Hk Hin]].
    cbn [timeseries_file fst] in Hk.
    assert (In k (map marketplace obs)) as Hm.
    { apply daily_medians_keys_In. apply in_map_iff. exists (k, v). auto. }
    apply (proj1 (Hpath k Hm)). symmetry. exact Hk. }
  assert (read_file (map (latest_file obs) (set_iter p (map marketplace obs)))
                    path = None) as Hl.
  { apply read_file_None. rewrite map_map. intros Hin.
    apply in_map_iff in Hin. destruct Hin as [m [Hk Hin]].
    cbn [latest_file fst] in Hk.
    apply (proj1 (set_iter_In p _ m Hset)) in Hin.
    apply (proj2 (Hpath m Hin)). symmetry. exact Hk. }
  rewrite !read_file_app, Hl, Hts. split; reflexivity.
Qed.

(** ** Edge cases of the latest-snapshot export *)

(** X9. For a marketplace without observations the list of dates is empty and
    taking its last element raises [IndexError]. *)
Theorem export_latest_marketplace_absent (obs : list _Observation)
  (m : string) (out : out_dir) :
  ~ In m (map marketplace obs) ->
  _export_latest_marketplace obs m out = Raise IndexError.
Proof.
  intros Hnot. unfold _export_latest_marketplace.
  rewrite (filter_false_on (fun o => String.eqb (marketplace o) m) obs).
  - reflexivity.
  - intros o Ho. destruct (String.eqb (marketplace o) m) eqn:E; [|reflexivity].
    exfalso. apply Hnot. apply String.eqb_eq in E. subst m.
    apply in_map, Ho.
Qed.

(** ** Observations without a unit price *)

Lemma unit_price_missing_price o :
  price_cents o = None -> exists e, unit_price_usd o = Raise e.
Proof.
  intros H. unfold unit_price_usd, price_usd, price. rewrite H.
  destruct (iso_currency o) as [c|e]; cbn [bind]; [|eauto].
  destruct (String.eqb c "USD"); cbn [bind]; eauto.
Qed.

(** X7. A currency symbol other than the dollar sign for which the symbol
    table has no entry makes the unit price raise [IndexError]. *)
Theorem unit_price_unknown_currency (o : _Observation) :
  currency_symbol o <> Some "$" ->
  iso4217parse_parse (currency_symbol o) = Ok [] ->
  iso_currency o = Raise IndexError /\
  unit_price_usd o = Raise IndexError.
Proof.
  intros Hsym Hparse.
  assert (iso_currency o = Raise IndexError) as Hiso.
  { unfold iso_currency.
    destruct (option_eqb String.eqb (currency_symbol o) (Some "$")) eqn:E.
    - apply (option_eqb_eq String.eqb String.eqb_eq) in E. contradiction.
    - rewrite Hparse. reflexivity. }
  split; [exact Hiso|]. unfold unit_price_usd, price_usd. rewrite Hiso.
  reflexivity.
Qed.

(** X6. The filter computes the unit price of every observation, also in
    buckets too small to be filtered: one observation without a unit price
    (a missing price, say) makes the whole call raise. *)
Theorem filter_outliers_raises_unpriced (p : process)
  (obs : list _Observation) (o : _Observation) :
  set_iter_ok p ->
  In o obs ->
  (price_cents o = None \/ exists e, unit_price_usd o = Raise e) ->
  exists e, _filter_outliers p obs = Raise e.
Proof.
  intros Hset Ho Hbad.
  assert (exists e, unit_price_usd o = Raise e) as [e He].
  { destruct Hbad as [H|H]; [apply unit_price_missing_price, H|exact H]. }
  destruct (_filter_outliers p obs) as [r|e'] eqn:E; [|eauto].
  destruct (filter_outliers_ok_priced p obs r Hset E o Ho) as [u Hu].
  congruence.
Qed.

(** X5. The observations of a bucket come out of the filter in the order they
    went in. *)
Theorem filter_outliers_keeps_bucket_order (p : process)
  (obs r : list _Observation) (m d : string) :
  set_iter_ok p ->
  NoDup (map uuid obs) ->
  _filter_outliers p obs = Ok r ->
  filter (in_bucket m d) r =
  filter (retained obs) (filter (in_bucket m d) obs).
Proof.
  intros Hset Hnd H.
  apply (filter_outliers_bucket p obs r m d Hset Hnd); [|exact H].
  apply (filter_outliers_ok_priced p obs r Hset H).
Qed.

(** * Further properties of the consolidation *)

(** X1. The consolidator raises in one case only: a tuple reported at least
    twice is the majority and carries no quantity; the exception is the
    [TypeError] of the comparison with [None]. *)
Theorem consolidate_raises_iff (p : process) (l : list Assignment) (k : nat)
  (e : exn) :
  _consolidate_assignments p l k = Raise e <->
  e = TypeError /\ 2 <= max_occurrences l /\
  exists pr cur stock, majority l = Some (pr, None, cur, stock).
Proof.
  destruct l as [|a l'].
  - split; [discriminate|]. intros [_ [H _]]. cbn in H. lia.
  - rewrite consolidate_nonempty by discriminate.
    destruct (Nat.leb 2 (max_occurrences (a :: l'))) eqn:Ege.
    + apply Nat.leb_le in Ege.
      destruct (majority_exists (a :: l')) as [[[[pr q] cur] st] Hm];
        [discriminate|].
      rewrite Hm. destruct q as [q|].
      * unfold _check_legit_quantity. cbn [bind first_item].
        split.
        -- destruct (negb _ || price_is_zero pr); discriminate.
        -- intros [_ [_ [pr' [cur' [st' H]]]]]. discriminate.
      * cbn [_check_legit_quantity bind]. split.
        -- intros H. injection H as <-. eauto 6.
        -- intros [-> _]. reflexivity.
    + apply Nat.leb_gt in Ege. split; [discriminate|].
      intros [_ [H _]]. lia.
Qed.

Lemma occurrences_perm t l l' :
  Permutation l l' -> occurrences t l = occurrences t l'.
Proof.
  intros H. unfold occurrences.
  apply Permutation_length, Permutation_filter', H.
Qed.

Lemma max_occurrences_perm l l' :
  Permutation l l' -> max_occurrences l = max_occurrences l'.
Proof.
  intros H. destruct l as [|a l0].
  - apply Permutation_nil in H. subst l'. reflexivity.
  - assert (l' <> []) as Hne'.
    { intros ->. apply Permutation_sym, Permutation_nil in H. discriminate. }
    destruct (max_occurrences_spec (a :: l0)) as [[x [Hx Ex]] Hle];
      [discriminate|].
    destruct (max_occurrences_spec l' Hne') as [[y [Hy Ey]] Hle'].
    apply Nat.le_antisymm.
    + rewrite <- Ex, (occurrences_perm _ _ _ H).
      apply Hle'. apply (Permutation_in _ H), Hx.
    + rewrite <- Ey, <- (occurrences_perm _ _ _ H).
      apply Hle. apply (Permutation_in _ (Permutation_sym H)), Hy.
Qed.

Lemma majority_occurrences l m :
  majority l = Some m -> occurrences m l = max_occurrences l.
Proof.
  unfold majority. intros H. apply find_some in H. destruct H as [_ H].
  apply Nat.eqb_eq, H.
Qed.

(** X2. When one tuple is reported more often than every other, the order of
    the reports of the task does not matter to the consolidator. *)
Theorem consolidate_order_irrelevant (p : process) (l l' : list Assignment)
  (k : nat) (h : HIT) (m : report) :
  Permutation l l' ->
  Forall (fun a => hit a = h) l ->
  majority l = Some m ->
  (forall t, t <> m -> occurrences t l < occurrences m l) ->
  _consolidate_assignments p l' k = _consolidate_assignments p l k.
Proof.
  intros Hperm Hhit Hmaj Hstrict.
  destruct l as [|a l0]; [discriminate|].
  destruct l' as [|a' l0'].
  { apply Permutation_sym, Permutation_nil in Hperm. discriminate. }
  assert (majority (a' :: l0') = Some m) as Hmaj'.
  { destruct (majority_exists (a' :: l0')) as [m' Hm']; [discriminate|].
    rewrite Hm'. f_equal.
    pose proof (majority_occurrences _ _ Hm') as E'.
    pose proof (majority_occurrences _ _ Hmaj) as E.
    rewrite <- (max_occurrences_perm _ _ Hperm), <- E,
      <- (occurrences_perm _ _ _ Hperm) in E'.
    destruct (report_eqb m' m) eqn:Eq; [apply report_eqb_eq, Eq|].
    apply report_eqb_neq in Eq. specialize (Hstrict m' Eq). lia. }
  rewrite !consolidate_nonempty by discriminate.
  rewrite <- (max_occurrences_perm _ _ Hperm), Hmaj, Hmaj'.
  cbn [first_item bind].
  assert (hit a' = hit a) as ->; [|reflexivity].
  rewrite Forall_forall in Hhit.
  rewrite (Hhit a (or_introl eq_refl)).
  apply Hhit. apply (Permutation_in _ (Permutation_sym Hperm)). left.
  reflexivity.
Qed.

Lemma consolidate_all_lengths p groups : forall acc k obs k',
  consolidate_all p groups acc k = Ok (obs, k') ->
  List.length obs + k = List.length acc + k' /\
  List.length acc <= List.length obs <= List.length acc + List.length groups.
Proof.
  induction groups as [|g groups IH]; intros acc k obs k' H.
  - cbn in H. injection H as <- <-. cbn [List.length]. lia.
  - cbn [consolidate_all] in H.
    destruct (_consolidate_assignments p g k) as [[r k1]|e] eqn:E;
      [|discriminate].
    cbn [bind fst snd] in H.
    destruct (consolidate_step_uuid _ _ _ _ _ E) as [[-> ->]|[o [-> [Ho ->]]]].
    + apply IH in H. cbn [List.length]. lia.
    + apply IH in H. rewrite length_app in H. cbn [List.length] in H |- *. lia.
Qed.

(** X3. The consolidation loop gives at most one observation per task, draws
    one identifier per observation, and gives the observations the
    identifiers in the order drawn; drawn fresh, they are distinct. *)
Theorem consolidate_all_identifiers (p : process)
  (groups : list (list Assignment)) (obs : list _Observation) (k : nat) :
  consolidate_all p groups [] 0 = Ok (obs, k) ->
  k = List.length obs /\
  List.length obs <= List.length groups /\
  map uuid obs = map (uuid4 p) (seq 0 k) /\
  (uuid4_fresh p -> NoDup (map uuid obs)).
Proof.
  intros H. pose proof (consolidate_all_lengths p groups [] 0 obs k H) as Hl.
  cbn [List.length] in Hl.
  pose proof (consolidate_all_uuids p groups [] 0 obs k H eq_refl) as Hu.
  split; [lia|]. split; [lia|]. split; [exact Hu|].
  intros Hf. apply (fresh_uuids_NoDup p obs k Hf Hu).
Qed.

(** ** Grouping the assignments *)

Lemma fetch_assignments_group_by table :
  _fetch_assignments table =
  group_by String.eqb (map (fun a => (hit_id a, a)) table).
Proof.
  unfold _fetch_assignments, group_by. rewrite fold_left_map'. reflexivity.
Qed.

(** X4. [_fetch_assignments] splits the table by task: the keys are distinct,
    each group holds the assignments of its task in table order and is not
    empty, and every assignment of the table is in the group of its task. *)
Theorem fetch_assignments_groups (table : list Assignment) :
  NoDup (map fst (_fetch_assignments table)) /\
  (forall h g, In (h, g) (_fetch_assignments table) ->
               g = filter (fun a => String.eqb (hit_id a) h) table /\ g <> []) /\
  (forall a, In a table ->
             In (hit_id a, filter (fun b => String.eqb (hit_id b) (hit_id a)) table)
                (_fetch_assignments table)).
Proof.
  rewrite fetch_assignments_group_by.
  set (kvs := map (fun a => (hit_id a, a)) table).
  pose proof (group_by_keys_NoDup String.eqb String.eqb_eq kvs) as Hnd.
  pose proof (group_by_entries String.eqb String.eqb_eq kvs) as Hent.
  assert (forall h, values_of String.eqb kvs h =
                    filter (fun a => String.eqb (hit_id a) h) table) as Hval.
  { intros h. unfold kvs.
    rewrite (values_of_map String.eqb hit_id (fun a => a)). apply map_id. }
  split; [exact Hnd|]. split.
  - intros h g Hin. rewrite Hent in Hin. apply in_map_iff in Hin.
    destruct Hin as [h' [Heq Hk]]. injection Heq as -> <-.
    rewrite Hval. split; [reflexivity|].
    apply (proj1 (group_by_keys_In String.eqb String.eqb_eq kvs h)) in Hk.
    unfold kvs in Hk. rewrite map_map in Hk. cbn [fst] in Hk.
    apply in_map_iff in Hk. destruct Hk as [a [Ha Hin]].
    intros Hnil.
    assert (In a (filter (fun a => String.eqb (hit_id a) h) table)) as Hf.
    { apply filter_In. split; [exact Hin|]. apply String.eqb_eq, Ha. }
    rewrite Hnil in Hf. exact Hf.
  - intros a Ha. rewrite Hent. apply in_map_iff. exists (hit_id a).
    rewrite Hval. split; [reflexivity|].
    apply (group_by_keys_In String.eqb String.eqb_eq).
    unfold kvs. rewrite map_map. cbn [fst]. apply in_map, Ha.
Qed.

(** ** The files of a run *)

(** X14. A run that returns leaves two files for every marketplace of the
    filtered observations, its time series and its latest snapshot, each
    written once, and no other file. *)
Theorem export_output_paths (p : process) (table : list Assignment)
  (out : out_dir) :
  set_iter_ok p -> uuid4_fresh p ->
  export p table = Ok out ->
  exists obs k r,
    consolidate_all p (map snd (_fetch_assignments table)) [] 0 = Ok (obs, k) /\
    _filter_outliers p obs = Ok r /\
    NoDup (map fst out) /\
    forall path,
      In path (map fst out) <->
      exists m, In m (map marketplace r) /\
                (path = (m ++ "_timeseries.csv")%string \/
                 path = (m ++ "_latest.csv")%string).
Proof.
  intros Hset Hfresh H.
  destruct (export_ok_inv p table out Hset Hfresh H) as [obs [k [Hc [Hnd Hpr]]]].
  destruct (export_returns p table obs k Hset Hnd Hpr Hc) as [r [Hr Hx]].
  rewrite Hx in H. injection H as <-.
  exists obs, k, r. split; [exact Hc|]. split; [exact Hr|].
  split; [apply export_files_paths_NoDup, Hset|].
  intros path. unfold export_files. rewrite map_app, in_app_iff, !map_map.
  rewrite !in_map_iff. split.
  - intros [[[k' v] [Hk Hin]]|[m [Hm Hin]]].
    + exists k'. split; [|left; symmetry; exact Hk].
      apply daily_medians_keys_In. apply in_map_iff. exists (k', v). auto.
    + exists m. split; [|right; symmetry; exact Hm].
      apply (set_iter_In p _ m Hset), Hin.
  - intros [m [Hm [Hp|Hp]]]; subst path.
    + left. apply (proj2 (daily_medians_keys_In r m)) in Hm.
      apply in_map_iff in Hm.
      destruct Hm as [[k' v] [Hk Hin]]. cbn [fst] in Hk. subst k'.
      exists (m, v). split; [reflexivity|exact Hin].
    + right. exists m. split; [reflexivity|].
      apply (set_iter_In p _ m Hset), Hm.
Qed.

Lemma set_iter_nil p : set_iter_ok p -> set_iter p [] = [].
Proof.
  intros H. destruct (set_iter p []) as [|x l] eqn:E; [reflexivity|].
  exfalso. apply (proj1 (set_iter_In p [] x H)). rewrite E. left. reflexivity.
Qed.

Lemma consolidate_all_no_consensus p groups : forall acc k,
  (forall g, In g groups -> max_occurrences g < 2) ->
  consolidate_all p groups acc k = Ok (acc, k).
Proof.
  induction groups as [|g groups IH]; intros acc k H; [reflexivity|].
  cbn [consolidate_all].
  assert (_consolidate_assignments p g k = Ok (None, k)) as ->.
  { destruct g as [|a g']; [reflexivity|].
    rewrite consolidate_nonempty by discriminate.
    assert (Nat.leb 2 (max_occurrences (a :: g')) = false) as ->;
      [|reflexivity].
    apply Nat.leb_gt. apply H. left. reflexivity. }
  cbn [bind fst snd]. apply IH. intros g' Hg'. apply H. right. exact Hg'.
Qed.

(** X15. When no task has a tuple reported twice, the table being empty for
    one, the run returns and leaves the output directory empty. *)
Theorem export_without_consensus (p : process) (table : list Assignment) :
  set_iter_ok p ->
  (forall g, In g (map snd (_fetch_assignments table)) ->
             max_occurrences g < 2) ->
  export p table = Ok [].
Proof.
  intros Hset H. unfold export.
  rewrite (consolidate_all_no_consensus p _ [] 0 H). cbn [bind fst].
  unfold _filter_outliers. cbn [map]. rewrite (set_iter_nil p Hset).
  cbn [list_prod for_each bind].
  unfold _export_latest_observations. cbn [map].
  rewrite (set_iter_nil p Hset). reflexivity.
Qed.

(** * Dates and marketplace keys *)

Lemma digit_compare (a b : nat) :
  Ascii.compare (digit a) (digit b) = Nat.compare (a mod 10) (b mod 10).
Proof.
  unfold digit.
  assert (a mod 10 < 10) as Ha by (apply Nat.mod_upper_bound; lia).
  assert (b mod 10 < 10) as Hb by (apply Nat.mod_upper_bound; lia).
  generalize dependent (b mod 10). generalize dependent (a mod 10).
  intros i Hi j Hj.
  do 10 (destruct i as [|i];
         [do 10 (destruct j as [|j]; [reflexivity|]); lia|]).
  lia.
Qed.

Lemma compare_div_mod (a b : nat) :
  Nat.compare a b =
  match Nat.compare (a / 10) (b / 10) with
  | Eq => Nat.compare (a mod 10) (b mod 10)
  | c => c
  end.
Proof.
  pose proof (Nat.div_mod_eq a 10) as Ea. pose proof (Nat.div_mod_eq b 10) as Eb.
  assert (a mod 10 < 10) as Ha by (apply Nat.mod_upper_bound; lia).
  assert (b mod 10 < 10) as Hb by (apply Nat.mod_upper_bound; lia).
  destruct (Nat.compare_spec (a / 10) (b / 10)) as [H|H|H].
  - destruct (Nat.compare_spec (a mod 10) (b mod 10)) as [H'|H'|H'].
    + apply Nat.compare_eq_iff. lia.
    + apply Nat.compare_lt_iff. lia.
    + apply Nat.compare_gt_iff. lia.
  - apply Nat.compare_lt_iff. lia.
  - apply Nat.compare_gt_iff. lia.
Qed.

Lemma compare_zfill2 (a b : nat) (s t : string) :
  a < 100 -> b < 100 ->
  String.compare (zfill2 a ++ s) (zfill2 b ++ t) =
  match Nat.compare a b with
  | Eq => String.compare s t
  | c => c
  end.
Proof.
  intros Ha Hb. unfold zfill2. cbn [append String.compare].
  rewrite !digit_compare, (compare_div_mod a b).
  rewrite (Nat.mod_small (a / 10)) by (apply Nat.Div0.div_lt_upper_bound; lia).
  rewrite (Nat.mod_small (b / 10)) by (apply Nat.Div0.div_lt_upper_bound; lia).
  destruct (Nat.compare (a / 10) (b / 10)); reflexivity.
Qed.

Lemma compare_zfill4 (a b : nat) (s t : string) :
  a < 100 * 100 -> b < 100 * 100 ->
  String.compare (zfill4 a ++ s) (zfill4 b ++ t) =
  match Nat.compare a b with
  | Eq => String.compare s t
  | c => c
  end.
Proof.
  intros Ha Hb. unfold zfill4, zfill2. cbn [append String.compare].
  rewrite !digit_compare.
  assert (forall n, n / 10 / 10 = n / 100) as E2
      by (intros n; rewrite Nat.Div0.div_div; reflexivity).
  assert (forall n, n / 100 / 10 = n / 1000) as E3
      by (intros n; rewrite Nat.Div0.div_div; reflexivity).
  rewrite (compare_div_mod a b), (compare_div_mod (a / 10) (b / 10)), !E2,
    (compare_div_mod (a / 100) (b / 100)), !E3.
  rewrite (Nat.mod_small (a / 1000)) by (apply Nat.Div0.div_lt_upper_bound; lia).
  rewrite (Nat.mod_small (b / 1000)) by (apply Nat.Div0.div_lt_upper_bound; lia).
  destruct (Nat.compare (a / 1000) (b / 1000)); try reflexivity.
  destruct (Nat.compare ((a / 100) mod 10) ((b / 100) mod 10)); try reflexivity.
  destruct (Nat.compare ((a / 10) mod 10) ((b / 10) mod 10)); reflexivity.
Qed.

Lemma compare_strftime (a b : date) :
  calendar_date a -> calendar_date b ->
  String.compare (strftime_Ymd a) (strftime_Ymd b) =
  match Nat.compare (d_year a) (d_year b) with
  | Eq => match Nat.compare (d_month a) (d_month b) with
          | Eq => Nat.compare (d_day a) (d_day b)
          | c => c
          end
  | c => c
  end.
Proof.
  intros [Hya [Hma Hda]] [Hyb [Hmb Hdb]]. unfold strftime_Ymd.
  rewrite compare_zfill4 by lia.
  destruct (Nat.compare (d_year a) (d_year b)); try reflexivity.
  cbn [append String.compare]. rewrite (digit_compare 0 0) || idtac.
  change (Ascii.compare "-" "-") with Eq. cbv iota.
  rewrite compare_zfill2 by lia.
  destruct (Nat.compare (d_month a) (d_month b)); try reflexivity.
  cbn [append String.compare]. change (Ascii.compare "-" "-") with Eq. cbv iota.
  change (zfill2 (d_day a)) with (zfill2 (d_day a) ++ "")%string.
  change (zfill2 (d_day b)) with (zfill2 (d_day b) ++ "")%string.
  rewrite compare_zfill2 by lia.
  destruct (Nat.compare (d_day a) (d_day b)); reflexivity.
Qed.

Lemma strftime_leb_date_le (a b : date) :
  calendar_date a -> calendar_date b ->
  (String.leb (strftime_Ymd a) (strftime_Ymd b) = true <-> date_le a b).
Proof.
  intros Ha Hb. pose proof (compare_strftime a b Ha Hb) as Hc.
  unfold date_le. split.
  - unfold String.leb. rewrite Hc.
    destruct (Nat.compare_spec (d_year a) (d_year b)) as [Hy|Hy|Hy];
      [|auto|discriminate].
    destruct (Nat.compare_spec (d_month a) (d_month b)) as [Hm|Hm|Hm];
      [|auto|discriminate].
    destruct (Nat.compare_spec (d_day a) (d_day b)) as [Hd|Hd|Hd];
      [intros _; right; split; [exact Hy|]; right; split; [exact Hm|]; lia
      |intros _; right; split; [exact Hy|]; right; split; [exact Hm|]; lia
      |discriminate].
  - intros H. unfold String.leb. rewrite Hc.
    destruct (Nat.compare_spec (d_year a) (d_year b)) as [Hy|Hy|Hy];
      [|reflexivity|exfalso; lia].
    destruct (Nat.compare_spec (d_month a) (d_month b)) as [Hm|Hm|Hm];
      [|reflexivity|exfalso; lia].
    destruct (Nat.compare_spec (d_day a) (d_day b)) as [Hd|Hd|Hd];
      [reflexivity|reflexivity|exfalso; lia].
Qed.

(** X11. On dates of the four-digit years, the lexicographic order of the
    [%Y-%m-%d] strings is the order of the dates, and equal strings are
    equal dates. *)
Theorem date_str_order (a b : date) :
  calendar_date a -> calendar_date b ->
  (String.leb (strftime_Ymd a) (strftime_Ymd b) = true <-> date_le a b) /\
  (strftime_Ymd a = strftime_Ymd b -> a = b).
Proof.
  intros Ha Hb. split; [apply strftime_leb_date_le; assumption|].
  intros Heq. pose proof (compare_strftime a b Ha Hb) as Hc.
  assert (String.compare (strftime_Ymd a) (strftime_Ymd b) = Eq) as He.
  { rewrite Heq. destruct (String.compare (strftime_Ymd b) (strftime_Ymd b))
      eqn:E; [reflexivity| |];
      pose proof (String.compare_antisym (strftime_Ymd b) (strftime_Ymd b))
        as Hs; rewrite E in Hs; discriminate. }
  rewrite Hc in He.
  destruct (Nat.compare_spec (d_year a) (d_year b)) as [Hy|Hy|Hy];
    try discriminate.
  destruct (Nat.compare_spec (d_month a) (d_month b)) as [Hm|Hm|Hm];
    try discriminate.
  apply Nat.compare_eq_iff in He.
  destruct a, b; cbn in *; congruence.
Qed.

(** X10. The date of the latest snapshot of a marketplace is the latest day on
    which the marketplace was observed. *)
Theorem latest_date_chronological (obs : list _Observation) (m : string) :
  (forall o, In o obs -> calendar_date (o_date o)) ->
  In m (map marketplace obs) ->
  exists o,
    In o obs /\ marketplace o = m /\ date_str o = latest_date m obs /\
    forall o', In o' obs -> marketplace o' = m ->
               date_le (o_date o') (o_date o).
Proof.
  intros Hcal Hm.
  destruct (latest_date_spec m obs Hm) as [_ [Hin Hub]].
  unfold dates_of in Hin. apply in_map_iff in Hin.
  destruct Hin as [o [Hd Ho]]. apply filter_In in Ho. destruct Ho as [Ho Hmo].
  apply String.eqb_eq in Hmo. exists o.
  split; [exact Ho|]. split; [exact Hmo|]. split; [exact Hd|].
  intros o' Ho' Hm'.
  apply (strftime_leb_date_le (o_date o') (o_date o) (Hcal o' Ho') (Hcal o Ho)).
  fold (date_str o'). fold (date_str o). rewrite Hd. apply Hub.
  unfold dates_of. apply in_map, filter_In. split; [exact Ho'|].
  apply String.eqb_eq, Hm'.
Qed.

(** ** Marketplace keys *)

Lemma replace_char_absent (c r : ascii) (s : string) :
  c <> r -> ~ In c (list_ascii_of_string (replace_char c r s)).
Proof.
  intros Hcr. induction s as [|a s IH]; cbn [replace_char list_ascii_of_string].
  - intros [].
  - intros [H|H]; [|exact (IH H)].
    destruct (Ascii.eqb a c) eqn:E.
    + congruence.
    + apply Ascii.eqb_neq in E. congruence.
Qed.

Lemma substring_all (s : string) : substring 0 (String.length s) s = s.
Proof. induction s as [|a s IH]; cbn; [reflexivity|]. rewrite IH. reflexivity. Qed.

(** X12. A marketplace key holds no dot; and a domain name gives the same key
    with and without a leading "www.". *)
Theorem marketplace_key (o o' : _Observation) :
  ~ In "."%char (list_ascii_of_string (marketplace o)) /\
  (domain_name o' = ("www." ++ domain_name o)%string ->
   String.prefix "www." (domain_name o) = false ->
   marketplace o' = marketplace o).
Proof.
  split.
  - unfold marketplace. apply replace_char_absent. discriminate.
  - intros Hd Hp. unfold marketplace. rewrite Hp, Hd.
    assert (String.prefix "www." ("www." ++ domain_name o) = true) as Hpre
        by (cbn; destruct (domain_name o); reflexivity).
    assert (substring (String.length "www.")
                      (String.length ("www." ++ domain_name o)
                       - String.length "www.")
                      ("www." ++ domain_name o) = domain_name o) as Hsub
        by (cbn; rewrite Nat.sub_0_r; apply substring_all).
    rewrite Hpre, Hsub. reflexivity.
Qed.

End Pipeline.

(** * The stand-ins meet what is assumed of the libraries *)

Lemma sample_process_set_iter_ok : set_iter_ok sample_process.
Proof.
  intros l. split; [apply NoDup_nodup|]. intros x. apply nodup_In.
Qed.

Lemma other_process_set_iter_ok : set_iter_ok other_process.
Proof.
  intros l. split; [apply NoDup_rev, NoDup_nodup|].
  intros x. cbn [set_iter other_process]. rewrite <- in_rev. apply nodup_In.
Qed.

Lemma letters_inj c : forall i j, letters c i = letters c j -> i = j.
Proof.
  induction i as [|i IH]; intros [|j] H; simpl in H; try discriminate;
    [reflexivity|].
  injection H as H. f_equal. apply IH, H.
Qed.

Lemma sample_process_fresh : uuid4_fresh sample_process.
Proof. intros i j. apply letters_inj. Qed.

Lemma other_process_fresh : uuid4_fresh other_process.
Proof. intros i j. apply letters_inj. Qed.

Lemma SFleb_total (x y : SpecFloat.spec_float) :
  x <> SpecFloat.S754_nan -> y <> SpecFloat.S754_nan ->
  SpecFloat.SFleb x y = true \/ SpecFloat.SFleb y x = true.
Proof.
  unfold SpecFloat.SFleb, SpecFloat.SFcompare.
  destruct x as [sx|sx| |sx mx ex], y as [sy|sy| |sy my ey]; intros Hx Hy;
    try congruence; try (destruct sx, sy; auto; fail);
    try (destruct sx; auto; fail); try (destruct sy; auto; fail).
  rewrite (Z.compare_antisym ex ey).
  change (Pos.compare_cont Eq my mx) with (Pos.compare my mx).
  change (Pos.compare_cont Eq mx my) with (Pos.compare mx my).
  rewrite (Pos.compare_antisym mx my).
  destruct sx, sy; auto; destruct (Z.compare ex ey); simpl; auto;
    destruct (Pos.compare mx my); simpl; auto.
Qed.

(** The order of a sorted column of floats compares any two floats. *)
Lemma float_le_total (x y : float) : float_le x y = true \/ float_le y x = true.
Proof.
  unfold float_le, PrimFloat.is_nan.
  rewrite !FloatAxioms.eqb_spec, !FloatAxioms.leb_spec.
  destruct (Prim2SF y) eqn:Ey; try (left; reflexivity);
    destruct (Prim2SF x) eqn:Ex; try (right; reflexivity);
    match goal with
    | |- (negb (SpecFloat.SFeqb ?b ?b) || SpecFloat.SFleb ?a ?b = true) \/ _ =>
        destruct (SFleb_total a b) as [H|H]; try discriminate;
        rewrite H, orb_true_r; auto
    end.
Qed.

Lemma sample_sort_str_perm (l : list row) : Permutation (sample_sort_str l) l.
Proof. apply isort_perm. Qed.

Lemma sample_sort_str_sorted (l : list row) :
  Sorted rows_by_str (sample_sort_str l).
Proof.
  apply (isort_sorted (fun r1 r2 : row => String.leb (fst r1) (fst r2))).
  intros a b. apply String.leb_total.
Qed.

Lemma sample_sort_float_perm (l : list row) : Permutation (sample_sort_float l) l.
Proof. apply isort_perm. Qed.

Lemma sample_sort_float_sorted (l : list row) :
  Sorted rows_by_float (sample_sort_float l).
Proof.
  apply (isort_sorted (fun r1 r2 : row => float_le (snd r1) (snd r2))).
  intros a b. apply float_le_total.
Qed.

(** * The properties at sample inputs *)

(** C1, at the failing input.  A bucket of four observations that all have
    the unit price 10: the standard deviation is zero, every z-score is
    NaN, no comparison with the threshold holds, and the filter returns
    nothing of the bucket. *)
Theorem filter_outliers_identical_bucket_dropped :
  mapM (unit_price_usd sample_parse sample_convert) identical_bucket =
    Ok [10%float; 10%float; 10%float; 10%float] /\
  _filter_outliers sample_parse sample_convert sample_process identical_bucket =
    Ok [].
Proof. split; vm_compute; reflexivity. Qed.

Lemma spread_bucket_priced : priced sample_parse sample_convert spread_bucket.
Proof.
  intros o [<-|[<-|[<-|[]]]]; eexists; vm_compute; reflexivity.
Defined.

Lemma spread_bucket_uuids : NoDup (map uuid spread_bucket).
Proof.
  repeat constructor; simpl; intuition discriminate.
Defined.


Lemma consolidate_majority_threshold_witness :
  _consolidate_assignments sample_process
    [sample_report (Some 1000%Z) (Some 5%Z);
     sample_report (Some 1000%Z) (Some 5%Z)] 0 =
  Ok (Some (mk_Observation sample_time (Some 1000%Z) (Some "$") 5 true
              "www.amazon.com" "https://www.amazon.com/dp/B1" ""),
      1).
Proof.
  refine (proj2 (consolidate_majority_threshold sample_process
                   [sample_report (Some 1000%Z) (Some 5%Z);
                    sample_report (Some 1000%Z) (Some 5%Z)] 0 sample_hit _ _)
                (Some 1000%Z) 5%Z (Some "$") true _ _ _ _).
  - discriminate.
  - repeat constructor.
  - vm_compute. lia.
  - reflexivity.
  - unfold legit_quantity. split; [lia|reflexivity].
  - discriminate.
Defined.

(** C4 as stated fails: two reports that agree on a negative price give an
    observation whose price is not above zero. *)
Lemma consolidate_negative_price_observation :
  _consolidate_assignments sample_process
    [sample_report (Some (-500)%Z) (Some 5%Z);
     sample_report (Some (-500)%Z) (Some 5%Z)] 0 =
  Ok (Some (sample_observation (Some (-500)%Z) 5 ""), 1) /\
  ~ (exists c, price_cents (sample_observation (Some (-500)%Z) 5 "") = Some c /\
               (0 < c)%Z).
Proof.
  split; [reflexivity|]. intros [c [Hc Hpos]]. simpl in Hc.
  injection Hc as <-. lia.
Qed.

Lemma consolidate_observation_invariant_witness :
  ((0 < quantity (sample_observation (Some (-500)%Z) 5 ""))%Z /\
   price_cents (sample_observation (Some (-500)%Z) 5 "") <> Some 0%Z) /\
  _consolidate_assignments sample_process
    [sample_report (Some 0%Z) (Some 5%Z); sample_report (Some 0%Z) (Some 5%Z)] 0
  = Ok (None, 0).
Proof.
  split.
  - refine (proj1 (consolidate_observation_invariant sample_process
                     [sample_report (Some (-500)%Z) (Some 5%Z);
                      sample_report (Some (-500)%Z) (Some 5%Z)] 0)
                  (sample_observation (Some (-500)%Z) 5 "") 1 _).
    reflexivity.
  - refine (proj2 (consolidate_observation_invariant sample_process
                     [sample_report (Some 0%Z) (Some 5%Z);
                      sample_report (Some 0%Z) (Some 5%Z)] 0)
                  5%Z (Some "$") true _ _).
    + vm_compute. lia.
    + reflexivity.
Defined.

Lemma consolidate_quantity_filter_witness :
  _consolidate_assignments sample_process
    [sample_report (Some 1000%Z) (Some 505%Z);
     sample_report (Some 1000%Z) (Some 505%Z)] 0 = Ok (None, 0) /\
  _check_legit_quantity (Some 500%Z) = Ok true.
Proof.
  split.
  - refine (proj1 (consolidate_quantity_filter sample_process
                     [sample_report (Some 1000%Z) (Some 505%Z);
                      sample_report (Some 1000%Z) (Some 505%Z)] 0
                     (Some 1000%Z) 505%Z (Some "$") true _ _) _).
    + vm_compute. lia.
    + reflexivity.
    + right. right. lia.
  - refine (proj1 (proj1 (proj2 (consolidate_quantity_filter sample_process
                     [sample_report (Some 1000%Z) (Some 500%Z);
                      sample_report (Some 1000%Z) (Some 500%Z)] 0
                     (Some 1000%Z) 500%Z (Some "$") true _ _)) _)).
    + vm_compute. lia.
    + reflexivity.
    + unfold legit_quantity. split; [lia|reflexivity].
Defined.

Lemma usd_price_unchanged_witness :
  price_usd sample_parse sample_convert (sample_observation (Some 5000%Z) 5 "a")
  = price (sample_observation (Some 5000%Z) 5 "a") /\
  unit_price_usd sample_parse sample_convert
    (sample_observation (Some 5000%Z) 5 "a") = Ok 10%float.
Proof.
  destruct (usd_price_unchanged sample_parse sample_convert
              (sample_observation (Some 5000%Z) 5 "a") (or_introl eq_refl))
    as [Hp Hu].
  split; [exact Hp|].
  rewrite (Hu 5000%Z eq_refl); [reflexivity|discriminate].
Defined.

Lemma export_latest_spec_witness :
  exists out',
    _export_latest_observations sample_parse sample_convert sample_sort_float
      sample_process spread_bucket [] = Ok out' /\
    forall m, In m (map marketplace spread_bucket) ->
      exists latest rs,
        read_file out' (m ++ "_latest.csv")%string =
          Some (mk_csv ("Url", "Unit_Price_$") rs) /\
        is_latest latest (dates_of m spread_bucket) /\
        Permutation rs
          (latest_rows sample_parse sample_convert m latest spread_bucket) /\
        Sorted rows_by_float rs.
Proof.
  apply (export_latest_spec sample_parse sample_convert sample_sort_float
           sample_sort_float_perm sample_sort_float_sorted sample_process
           spread_bucket []).
  - exact sample_process_set_iter_ok.
  - exact spread_bucket_priced.
Defined.

(** The files the sample run leaves. *)
Definition sample_out : out_dir :=
  match export sample_parse sample_convert sample_median sample_sort_str
               sample_sort_float sample_process sample_table with
  | Ok out => out
  | Raise _ => []
  end.

Lemma export_deterministic_witness :
  exists out',
    export sample_parse sample_convert sample_median sample_sort_str
      sample_sort_float other_process sample_table = Ok out' /\
    forall path, read_file out' path = read_file sample_out path.
Proof.
  apply (export_deterministic sample_parse sample_convert sample_median
           sample_sort_str sample_sort_float
           sample_sort_str_perm sample_sort_str_sorted
           sample_process other_process sample_table sample_out).
  - exact sample_process_set_iter_ok.
  - exact other_process_set_iter_ok.
  - exact sample_process_fresh.
  - exact other_process_fresh.
  - vm_compute. reflexivity.
Defined.

(** C7 as stated fails: every process downloads the exchange-rate table
    anew.  Two runs on the same assignments table, with the same
    identifiers and the same set order, that differ only in the rate their
    tables give for the day of the task priced in francs, leave different
    latest-snapshot files for that marketplace. *)
Lemma export_depends_on_rates :
  exists out1 out2,
    export sample_parse sample_convert sample_median sample_sort_str
      sample_sort_float sample_process sample_table = Ok out1 /\
    export sample_parse later_convert sample_median sample_sort_str
      sample_sort_float sample_process sample_table = Ok out2 /\
    read_file out1 "ebay_com_latest.csv" =
      Some (mk_csv ("Url", "Unit_Price_$")
                   [("https://www.ebay.com/itm/7", 1%float)]) /\
    read_file out2 "ebay_com_latest.csv" =
      Some (mk_csv ("Url", "Unit_Price_$")
                   [("https://www.ebay.com/itm/7", 1.5%float)]) /\
    read_file out1 "ebay_com_latest.csv" <> read_file out2 "ebay_com_latest.csv".
Proof.
  eexists. eexists.
  split; [vm_compute; reflexivity|].
  split; [vm_compute; reflexivity|].
  split; [vm_compute; reflexivity|].
  split; [vm_compute; reflexivity|].
  intros H.
  apply (f_equal
           (fun r : option csv =>
              match r with
              | Some c =>
                  match rows c with
                  | (_, x) :: _ => PrimFloat.eqb x 1
                  | [] => false
                  end
              | None => false
              end)) in H.
  vm_compute in H. discriminate H.
Qed.

(** * The import helpers and the batch commands *)

Section MturkProperties.

Variable is_space : N -> bool.
Variable is_Sc : N -> bool.
Variable py_float : text -> option float.
Variable py_round : float -> result Z.
Variable batch_name : HIT -> string.

(** No digit is a whitespace character. *)
Hypothesis digit_not_space : forall c, is_digit c = true -> is_space c = false.

Lemma digit_not_separator c :
  is_digit c = true -> (c =? comma)%N = false /\ (c =? dot)%N = false.
Proof.
  unfold is_digit, comma, dot. rewrite andb_true_iff, !N.leb_le.
  intros [H1 H2]. split; apply N.eqb_neq; lia.
Qed.

Lemma strip_digits (ds tail : text) :
  Forall (fun c => is_digit c = true) ds ->
  strip_thousand_separators is_space (ds ++ tail) =
  ds ++ strip_thousand_separators is_space tail.
Proof.
  induction 1 as [|c ds Hc _ IH]; [reflexivity|].
  cbn [app strip_thousand_separators].
  destruct (digit_not_separator c Hc) as [E1 E2].
  rewrite (digit_not_space c Hc), E1, E2. cbn [orb andb]. rewrite IH.
  reflexivity.
Qed.

Lemma replace_digits (ds tail : text) :
  Forall (fun c => is_digit c = true) ds ->
  replace_decimal_comma (ds ++ tail) = ds ++ replace_decimal_comma tail.
Proof.
  induction 1 as [|c ds Hc _ IH]; [reflexivity|].
  cbn [app replace_decimal_comma].
  destruct (digit_not_separator c Hc) as [E1 _]. rewrite E1, IH. reflexivity.
Qed.

(** X16. A price written with a decimal comma loses its decimals: the comma and
    the one or two digits after it are replaced by a dot, so that "12,50"
    is read as "12.". *)
Theorem clean_price_decimal_comma (ds : text) (d1 d2 : N) :
  Forall (fun c => is_digit c = true) ds ->
  is_digit d1 = true -> is_digit d2 = true ->
  replace_decimal_comma
    (strip_thousand_separators is_space (ds ++ [comma; d1; d2])) = ds ++ [dot] /\
  _clean_price is_space py_float py_round (ds ++ [comma; d1; d2]) =
  _clean_price is_space py_float py_round (ds ++ [dot]) /\
  _clean_price is_space py_float py_round (ds ++ [comma; d1]) =
  _clean_price is_space py_float py_round (ds ++ [dot]).
Proof.
  intros Hds H1 H2.
  assert (strip_thousand_separators is_space [comma; d1; d2] = [comma; d1; d2])
    as S2.
  { cbn [strip_thousand_separators digits_ahead]. rewrite andb_false_r.
    destruct (digit_not_separator d1 H1) as [E1 E1'].
    destruct (digit_not_separator d2 H2) as [E2 E2'].
    rewrite (digit_not_space d1 H1), (digit_not_space d2 H2), E1, E1', E2, E2'.
    reflexivity. }
  assert (strip_thousand_separators is_space [comma; d1] = [comma; d1]) as S1.
  { cbn [strip_thousand_separators digits_ahead]. rewrite andb_false_r.
    destruct (digit_not_separator d1 H1) as [E1 E1'].
    rewrite (digit_not_space d1 H1), E1, E1'. reflexivity. }
  assert (strip_thousand_separators is_space [dot] = [dot]) as S0.
  { cbn [strip_thousand_separators digits_ahead]. rewrite andb_false_r.
    reflexivity. }
  assert (replace_decimal_comma [comma; d1; d2] = [dot]) as R2.
  { cbn [replace_decimal_comma decimal_comma_match].
    rewrite N.eqb_refl, H1, H2. reflexivity. }
  assert (replace_decimal_comma [comma; d1] = [dot]) as R1.
  { cbn [replace_decimal_comma decimal_comma_match].
    rewrite N.eqb_refl, H1. reflexivity. }
  assert (replace_decimal_comma [dot] = [dot]) as R0 by reflexivity.
  unfold _clean_price.
  rewrite !(strip_digits ds _ Hds), S2, S1, S0.
  rewrite !(replace_digits ds _ Hds), R2, R1, R0. auto.
Qed.

(** X17. A comma, a dot or a whitespace character that stands before three or
    more digits is dropped, so that "1,500", "1 500" and also "1.500" are
    read as "1500". *)
Theorem clean_price_thousand_separator (ds ts : text) (sep : N) :
  Forall (fun c => is_digit c = true) ds ->
  Forall (fun c => is_digit c = true) ts ->
  3 <= List.length ts ->
  sep = comma \/ sep = dot \/ is_space sep = true ->
  replace_decimal_comma
    (strip_thousand_separators is_space (ds ++ sep :: ts)) = ds ++ ts /\
  _clean_price is_space py_float py_round (ds ++ sep :: ts) =
  _clean_price is_space py_float py_round (ds ++ ts).
Proof.
  intros Hds Hts Hlen Hsep.
  assert (strip_thousand_separators is_space ts = ts) as St.
  { rewrite <- (app_nil_r ts) at 1. rewrite (strip_digits ts [] Hts).
    apply app_nil_r. }
  assert (replace_decimal_comma ts = ts) as Rt.
  { rewrite <- (app_nil_r ts) at 1. rewrite (replace_digits ts [] Hts).
    apply app_nil_r. }
  assert (digits_ahead ts = true) as Ha.
  { destruct ts as [|a [|b [|c ts']]]; cbn [List.length] in Hlen; try lia.
    inversion Hts as [|? ? Ha Hts1]; subst.
    inversion Hts1 as [|? ? Hb Hts2]; subst.
    inversion Hts2 as [|? ? Hc _]; subst.
    cbn [digits_ahead]. rewrite Ha, Hb, Hc. reflexivity. }
  assert (strip_thousand_separators is_space (sep :: ts) = ts) as Ss.
  { cbn [strip_thousand_separators]. rewrite Ha, andb_true_r.
    assert (is_space sep || (sep =? comma)%N || (sep =? dot)%N = true) as ->.
    { destruct Hsep as [->|[->|H]].
      - rewrite N.eqb_refl, orb_true_r. reflexivity.
      - rewrite N.eqb_refl, orb_true_r. reflexivity.
      - rewrite H. reflexivity. }
    exact St. }
  unfold _clean_price.
  rewrite !(strip_digits ds _ Hds), Ss, St.
  rewrite !(replace_digits ds _ Hds), Rt. auto.
Qed.

Lemma search_currency_from_spec (s : text) : forall i j,
  search_currency_from is_Sc i s = Some j ->
  i <= j /\ exists c, nth_error s (j - i) = Some c /\ is_Sc c = true.
Proof.
  induction s as [|c rest IH]; intros i j H; [discriminate|].
  cbn [search_currency_from] in H.
  destruct (is_Sc c && _) eqn:E.
  - injection H as <-. rewrite Nat.sub_diag. split; [lia|].
    exists c. split; [reflexivity|]. apply andb_true_iff in E. apply E.
  - apply IH in H. destruct H as [Hle [c' [Hn Hc']]]. split; [lia|].
    exists c'. split; [|exact Hc'].
    replace (j - i) with (S (j - S i)) by lia. exact Hn.
Qed.

(** X18. What [_parse_price_currency] returns: the currency is one currency
    symbol of the text, a price never comes without its currency, and for a
    product in stock the currency is always there. *)
Theorem parse_price_currency_result (raw_price : option text) (in_stock : bool)
  (price : option Z) (currency : option text) :
  _parse_price_currency is_space is_Sc py_float py_round raw_price in_stock =
    Ok (price, currency) ->
  (currency = None -> price = None /\ (in_stock = false \/ raw_price = None)) /\
  (forall cur, currency = Some cur ->
     exists raw c, raw_price = Some raw /\ cur = [c] /\ In c raw /\
                   is_Sc c = true).
Proof.
  unfold _parse_price_currency. destruct raw_price as [raw|].
  - destruct (search_currency_from is_Sc 0 raw) as [start|] eqn:Es.
    + intros H.
      destruct (if Nat.eqb start 0
                then _clean_price is_space py_float py_round (skipn (S start) raw)
                else _clean_price is_space py_float py_round (firstn start raw))
        as [pr|e]; [|discriminate].
      cbn [bind] in H. injection H as <- <-. split; [discriminate|].
      intros cur Hcur. injection Hcur as <-.
      destruct (search_currency_from_spec raw 0 start Es) as [_ [c [Hn Hc]]].
      rewrite Nat.sub_0_r in Hn. exists raw, c. split; [reflexivity|].
      split; [|split; [eapply nth_error_In; exact Hn|exact Hc]].
      clear Es. revert start Hn. induction raw as [|a raw IH]; intros start Hn.
      * destruct start; discriminate.
      * destruct start as [|start]; cbn in Hn |- *.
        -- injection Hn as ->. reflexivity.
        -- apply IH, Hn.
    + destruct in_stock; [discriminate|]. intros H. injection H as <- <-.
      split; [auto|discriminate].
  - intros H. injection H as <- <-. split; [auto|discriminate].
Qed.

(** X19. [prune] deletes exactly the HITs that are neither assignable nor
    unassignable and, unless forced, belong to a batch with imported
    assignments; it echoes the number of deletions. *)
Theorem prune_deletions (force : bool) (table : list Assignment)
  (hits : list api_hit) :
  snd (prune batch_name force table hits) =
    List.length (fst (prune batch_name force table hits)) /\
  forall id,
    In id (fst (prune batch_name force table hits)) <->
    exists h, In h hits /\ HITId h = id /\
              HITStatus h <> "Assignable" /\ HITStatus h <> "Unassignable" /\
              (force = true \/
               exists a, In a table /\
                         batch_name (hit a) = RequesterAnnotation h).
Proof.
  unfold prune.
  set (imported := map (fun a => batch_name (hit a)) table).
  set (keep := fun h : api_hit =>
                 (force || existsb (String.eqb (RequesterAnnotation h)) imported)
                 && negb (existsb (String.eqb (HITStatus h))
                                  ["Assignable"; "Unassignable"])).
  assert (forall st,
            fold_left
              (fun (st : list string * nat) hit =>
                 if keep hit then (fst st ++ [HITId hit], S (snd st)) else st)
              hits st =
            (fst st ++ map HITId (filter keep hits),
             snd st + List.length (filter keep hits))) as Hfold.
  { induction hits as [|h hs IH]; intros [dl n]; cbn [fold_left filter].
    - cbn [map List.length fst snd]. rewrite app_nil_r, Nat.add_0_r.
      reflexivity.
    - rewrite IH. destruct (keep h); cbn [fst snd map List.length].
      + rewrite <- app_assoc. f_equal. lia.
      + reflexivity. }
  change (fold_left _ hits ([], 0))
    with (fold_left
            (fun (st : list string * nat) hit =>
               if keep hit then (fst st ++ [HITId hit], S (snd st)) else st)
            hits ([], 0)).
  rewrite Hfold. cbn [fst snd app Nat.add]. split; [rewrite length_map; reflexivity|].
  intros id. rewrite in_map_iff. split.
  - intros [h [Hid Hin]]. apply filter_In in Hin. destruct Hin as [Hin Hk].
    exists h. split; [exact Hin|]. split; [exact Hid|].
    unfold keep in Hk. apply andb_true_iff in Hk. destruct Hk as [Hd Hs].
    apply negb_true_iff in Hs. cbn [existsb] in Hs.
    apply orb_false_iff in Hs. destruct Hs as [Hs1 Hs2].
    apply orb_false_iff in Hs2. destruct Hs2 as [Hs2 _].
    apply String.eqb_neq in Hs1. apply String.eqb_neq in Hs2.
    split; [exact Hs1|]. split; [exact Hs2|].
    apply orb_true_iff in Hd. destruct Hd as [Hf|Hb]; [left; exact Hf|].
    right. apply existsb_exists in Hb. destruct Hb as [b [Hb Eb]].
    apply String.eqb_eq in Eb. unfold imported in Hb. apply in_map_iff in Hb.
    destruct Hb as [a [Ha Hin']]. exists a. split; [exact Hin'|]. congruence.
  - intros [h [Hin [Hid [Hs1 [Hs2 Hd]]]]]. exists h. split; [exact Hid|].
    apply filter_In. split; [exact Hin|]. unfold keep.
    apply andb_true_iff. split.
    + destruct Hd as [->|[a [Ha Hb]]]; [reflexivity|].
      apply orb_true_iff. right. apply existsb_exists.
      exists (batch_name (hit a)). split.
      * unfold imported. apply in_map_iff. exists a. auto.
      * apply String.eqb_eq. symmetry. exact Hb.
    + apply negb_true_iff. cbn [existsb].
      apply String.eqb_neq in Hs1. apply String.eqb_neq in Hs2.
      rewrite Hs1, Hs2. reflexivity.
Qed.

End MturkProperties.

Lemma sorted_strings_unique : forall l1 l2 : list string,
  StronglySorted (fun a b => String.leb a b = true) l1 ->
  StronglySorted (fun a b => String.leb a b = true) l2 ->
  Permutation l1 l2 -> l1 = l2.
Proof.
  induction l1 as [|a l1 IH]; intros l2 H1 H2 Hp.
  - apply Permutation_nil in Hp. congruence.
  - destruct l2 as [|b l2].
    { apply Permutation_sym, Permutation_nil in Hp. discriminate. }
    apply StronglySorted_inv in H1. destruct H1 as [H1 Ha].
    apply StronglySorted_inv in H2. destruct H2 as [H2 Hb].
    assert (a = b) as ->.
    { pose proof (Permutation_in a Hp (or_introl eq_refl)) as Hina.
      pose proof (Permutation_in b (Permutation_sym Hp) (or_introl eq_refl))
        as Hinb.
      destruct Hina as [Hba|Hina]; [congruence|].
      destruct Hinb as [Hab|Hinb]; [congruence|].
      rewrite Forall_forall in Ha, Hb.
      apply String.leb_antisym; [apply Ha, Hinb|apply Hb, Hina]. }
    f_equal. apply IH; try assumption.
    apply Permutation_cons_inv in Hp. exact Hp.
Qed.

(** X20. [ls] echoes each batch name once, in ascending order, whatever the
    order in which the set of names is iterated. *)
Theorem ls_sorted_batches (p1 p2 : process) (hits : list api_hit) :
  set_iter_ok p1 -> set_iter_ok p2 ->
  ls p1 hits = ls p2 hits /\
  NoDup (ls p1 hits) /\
  Sorted (fun a b => String.leb a b = true) (ls p1 hits) /\
  (forall b, In b (ls p1 hits) <-> In b (map RequesterAnnotation hits)).
Proof.
  intros H1 H2. unfold ls, py_sorted.
  set (names := map RequesterAnnotation hits).
  assert (forall p, set_iter_ok p ->
            Permutation (isort String.leb (set_iter p names)) (set_iter p names))
    as Hperm by (intros p _; apply isort_perm).
  assert (forall p, StronglySorted (fun a b => String.leb a b = true)
                      (isort String.leb (set_iter p names))) as Hss.
  { intros p. apply Sorted_StronglySorted.
    - intros a b c. apply string_leb_trans.
    - apply isort_sorted, String.leb_total. }
  split; [|split; [|split]].
  - apply sorted_strings_unique; try apply Hss.
    rewrite (Hperm p1 H1), (Hperm p2 H2).
    apply NoDup_Permutation; try (apply set_iter_NoDup; assumption).
    intros b. rewrite !set_iter_In by assumption. reflexivity.
  - apply (Permutation_NoDup (l := set_iter p1 names)).
    + apply Permutation_sym, Hperm, H1.
    + apply set_iter_NoDup, H1.
  - apply isort_sorted, String.leb_total.
  - intros b. rewrite <- (set_iter_In p1 names b H1). split.
    + apply Permutation_in, Hperm, H1.
    + apply Permutation_in, Permutation_sym, Hperm, H1.
Qed.

(** * The further properties at sample inputs *)

Lemma spread_bucket_marketplaces m :
  In m (map marketplace spread_bucket) -> m = "amazon_com".
Proof.
  intros [H|[H|[H|[]]]]; rewrite <- H; reflexivity.
Defined.

Lemma export_timeseries_rows_witness :
  exists out',
    _export_timeseries sample_parse sample_convert sample_median sample_sort_str
      spread_bucket [] = Ok out' /\
    forall m, In m (map marketplace spread_bucket) ->
      exists rs,
        read_file out' (m ++ "_timeseries.csv")%string =
          Some (mk_csv ("Date", "Median_Unit_Price_$") rs) /\
        Sorted rows_by_str rs /\
        NoDup (map fst rs) /\
        (forall d x, In (d, x) rs <->
                     In d (dates_of m spread_bucket) /\
                     x = sample_median
                           (bucket_prices sample_parse sample_convert
                              spread_bucket m d)).
Proof.
  apply (export_timeseries_rows sample_parse sample_convert sample_median
           sample_sort_str sample_sort_str_perm sample_sort_str_sorted
           spread_bucket []).
  exact spread_bucket_priced.
Defined.

Lemma exporters_keep_other_files_witness :
  exists out1 out2,
    _export_timeseries sample_parse sample_convert sample_median sample_sort_str
      spread_bucket [] = Ok out1 /\
    _export_latest_observations sample_parse sample_convert sample_sort_float
      sample_process spread_bucket out1 = Ok out2 /\
    read_file out1 "notes.txt" = read_file [] "notes.txt" /\
    read_file out2 "notes.txt" = read_file [] "notes.txt".
Proof.
  apply (exporters_keep_other_files sample_parse sample_convert sample_median
           sample_sort_str sample_sort_float sample_process spread_bucket []
           "notes.txt").
  - exact sample_process_set_iter_ok.
  - exact spread_bucket_priced.
  - intros m Hm. rewrite (spread_bucket_marketplaces m Hm).
    split; discriminate.
Defined.

Lemma export_latest_marketplace_absent_witness :
  _export_latest_marketplace sample_parse sample_convert sample_sort_float
    spread_bucket "ebay_com" [] = Raise IndexError.
Proof.
  apply (export_latest_marketplace_absent sample_parse sample_convert
           sample_sort_float spread_bucket "ebay_com" []).
  intros Hm. apply spread_bucket_marketplaces in Hm. discriminate.
Defined.

(** An observation priced in a currency the symbol table does not know. *)
Definition unknown_currency_observation : _Observation :=
  mk_Observation sample_time (Some 5000%Z) (Some "XX") 5 true
    "www.amazon.com" "https://www.amazon.com/dp/B1" "x".

Lemma unit_price_unknown_currency_witness :
  iso_currency sample_parse unknown_currency_observation = Raise IndexError /\
  unit_price_usd sample_parse sample_convert unknown_currency_observation =
    Raise IndexError.
Proof.
  apply (unit_price_unknown_currency sample_parse sample_convert
           unknown_currency_observation).
  - discriminate.
  - reflexivity.
Defined.

Lemma filter_outliers_raises_unpriced_witness :
  exists e,
    _filter_outliers sample_parse sample_convert sample_process
      [sample_observation (Some 5000%Z) 5 "a"; sample_observation None 5 "b"]
    = Raise e.
Proof.
  apply (filter_outliers_raises_unpriced sample_parse sample_convert
           sample_process
           [sample_observation (Some 5000%Z) 5 "a"; sample_observation None 5 "b"]
           (sample_observation None 5 "b")).
  - exact sample_process_set_iter_ok.
  - right. left. reflexivity.
  - left. reflexivity.
Defined.

Lemma filter_outliers_keeps_bucket_order_witness :
  filter (in_bucket "amazon_com" "2020-04-01")
         [sample_observation (Some 6000%Z) 5 "b"] =
  filter (retained sample_parse sample_convert spread_bucket)
         (filter (in_bucket "amazon_com" "2020-04-01") spread_bucket).
Proof.
  apply (filter_outliers_keeps_bucket_order sample_parse sample_convert
           sample_process spread_bucket
           [sample_observation (Some 6000%Z) 5 "b"]
           "amazon_com" "2020-04-01").
  - exact sample_process_set_iter_ok.
  - exact spread_bucket_uuids.
  - vm_compute. reflexivity.
Defined.

Lemma consolidate_order_irrelevant_witness :
  _consolidate_assignments sample_process
    [sample_report (Some 1200%Z) (Some 5%Z);
     sample_report (Some 1000%Z) (Some 5%Z);
     sample_report (Some 1000%Z) (Some 5%Z)] 0 =
  _consolidate_assignments sample_process
    [sample_report (Some 1000%Z) (Some 5%Z);
     sample_report (Some 1200%Z) (Some 5%Z);
     sample_report (Some 1000%Z) (Some 5%Z)] 0.
Proof.
  apply (consolidate_order_irrelevant sample_process
           [sample_report (Some 1000%Z) (Some 5%Z);
            sample_report (Some 1200%Z) (Some 5%Z);
            sample_report (Some 1000%Z) (Some 5%Z)]
           [sample_report (Some 1200%Z) (Some 5%Z);
            sample_report (Some 1000%Z) (Some 5%Z);
            sample_report (Some 1000%Z) (Some 5%Z)]
           0 sample_hit (Some 1000%Z, Some 5%Z, Some "$", true)).
  - apply perm_swap.
  - repeat constructor.
  - reflexivity.
  - intros t Ht.
    replace (occurrences (Some 1000%Z, Some 5%Z, Some "$", true)
               [sample_report (Some 1000%Z) (Some 5%Z);
                sample_report (Some 1200%Z) (Some 5%Z);
                sample_report (Some 1000%Z) (Some 5%Z)])
      with 2 by reflexivity.
    unfold occurrences. cbn [filter].
    destruct (report_eqb (report_of (sample_report (Some 1000%Z) (Some 5%Z))) t)
      eqn:E.
    + apply report_eqb_eq in E. exfalso. apply Ht. rewrite <- E. reflexivity.
    + destruct (report_eqb (report_of (sample_report (Some 1200%Z) (Some 5%Z))) t);
        cbn [List.length]; lia.
Defined.

(** The observations the sample run consolidates. *)
Definition sample_consolidated : list _Observation :=
  match consolidate_all sample_process
          (map snd (_fetch_assignments sample_table)) [] 0 with
  | Ok ak => fst ak
  | Raise _ => []
  end.

Lemma consolidate_all_identifiers_witness :
  2 = List.length sample_consolidated /\
  List.length sample_consolidated <=
    List.length (map snd (_fetch_assignments sample_table)) /\
  map uuid sample_consolidated = map (uuid4 sample_process) (seq 0 2) /\
  (uuid4_fresh sample_process -> NoDup (map uuid sample_consolidated)).
Proof.
  apply (consolidate_all_identifiers sample_process
           (map snd (_fetch_assignments sample_table)) sample_consolidated 2).
  reflexivity.
Defined.

Lemma export_output_paths_witness :
  exists obs k r,
    consolidate_all sample_process (map snd (_fetch_assignments sample_table))
      [] 0 = Ok (obs, k) /\
    _filter_outliers sample_parse sample_convert sample_process obs = Ok r /\
    NoDup (map fst sample_out) /\
    forall path,
      In path (map fst sample_out) <->
      exists m, In m (map marketplace r) /\
                (path = (m ++ "_timeseries.csv")%string \/
                 path = (m ++ "_latest.csv")%string).
Proof.
  apply (export_output_paths sample_parse sample_convert sample_median
           sample_sort_str sample_sort_float
           sample_process sample_table sample_out).
  - exact sample_process_set_iter_ok.
  - exact sample_process_fresh.
  - vm_compute. reflexivity.
Defined.

Lemma date_str_order_witness :
  (String.leb (strftime_Ymd (mk_date 2020 4 1)) (strftime_Ymd (mk_date 2020 12 25))
   = true <-> date_le (mk_date 2020 4 1) (mk_date 2020 12 25)) /\
  (strftime_Ymd (mk_date 2020 4 1) = strftime_Ymd (mk_date 2020 12 25) ->
   mk_date 2020 4 1 = mk_date 2020 12 25).
Proof.
  apply (date_str_order (mk_date 2020 4 1) (mk_date 2020 12 25));
    unfold calendar_date; cbn [d_year d_month d_day]; lia.
Defined.

Lemma latest_date_chronological_witness :
  exists o,
    In o spread_bucket /\ marketplace o = "amazon_com" /\
    date_str o = latest_date "amazon_com" spread_bucket /\
    forall o', In o' spread_bucket -> marketplace o' = "amazon_com" ->
               date_le (o_date o') (o_date o).
Proof.
  apply (latest_date_chronological spread_bucket "amazon_com").
  - intros o [<-|[<-|[<-|[]]]]; unfold calendar_date;
      cbn [o_date sample_observation o_datetime sample_time year month day
           d_year d_month d_day]; lia.
  - left. reflexivity.
Defined.

Lemma sample_digit_not_space c : is_digit c = true -> sample_is_space c = false.
Proof.
  unfold is_digit, sample_is_space. rewrite andb_true_iff, !N.leb_le.
  intros [H1 H2]. apply orb_false_iff. split.
  - apply N.eqb_neq. lia.
  - apply andb_false_iff. right. apply N.leb_gt. lia.
Qed.

(** The text "12,50" is cleaned to "12." and gives the price of "12.". *)
Lemma clean_price_decimal_comma_witness :
  replace_decimal_comma
    (strip_thousand_separators sample_is_space ([49; 50] ++ [comma; 53; 48])%N)
  = ([49; 50] ++ [dot])%N /\
  _clean_price sample_is_space sample_float sample_round
    ([49; 50] ++ [comma; 53; 48])%N =
  _clean_price sample_is_space sample_float sample_round ([49; 50] ++ [dot])%N /\
  _clean_price sample_is_space sample_float sample_round
    ([49; 50] ++ [comma; 53])%N =
  _clean_price sample_is_space sample_float sample_round ([49; 50] ++ [dot])%N.
Proof.
  apply (clean_price_decimal_comma sample_is_space sample_float sample_round
           sample_digit_not_space [49; 50]%N 53%N 48%N).
  - repeat constructor.
  - reflexivity.
  - reflexivity.
Defined.

(** The text "1.500" is cleaned to "1500". *)
Lemma clean_price_thousand_separator_witness :
  replace_decimal_comma
    (strip_thousand_separators sample_is_space ([49] ++ dot :: [53; 48; 48])%N)
  = ([49] ++ [53; 48; 48])%N /\
  _clean_price sample_is_space sample_float sample_round
    ([49] ++ dot :: [53; 48; 48])%N =
  _clean_price sample_is_space sample_float sample_round ([49] ++ [53; 48; 48])%N.
Proof.
  apply (clean_price_thousand_separator sample_is_space sample_float
           sample_round sample_digit_not_space [49]%N [53; 48; 48]%N dot).
  - repeat constructor.
  - repeat constructor.
  - cbn [List.length]. lia.
  - right. left. reflexivity.
Defined.

Lemma parse_price_currency_result_witness :
  (Some [36%N] = None ->
   Some 1200%Z = None /\ (true = false \/ Some [36; 49; 50; 44; 53; 48]%N = None)) /\
  (forall cur, Some [36%N] = Some cur ->
     exists raw c, Some [36; 49; 50; 44; 53; 48]%N = Some raw /\ cur = [c] /\
                   In c raw /\ sample_is_Sc c = true).
Proof.
  apply (parse_price_currency_result sample_is_space sample_is_Sc sample_float
           sample_round (Some [36; 49; 50; 44; 53; 48]%N) true
           (Some 1200%Z) (Some [36%N])).
  vm_compute. reflexivity.
Defined.

Lemma ls_sorted_batches_witness :
  ls sample_process sample_hits = ls other_process sample_hits /\
  NoDup (ls sample_process sample_hits) /\
  Sorted (fun a b => String.leb a b = true) (ls sample_process sample_hits) /\
  (forall b, In b (ls sample_process sample_hits) <->
             In b (map RequesterAnnotation sample_hits)).
Proof.
  apply (ls_sorted_batches sample_process other_process sample_hits).
  - exact sample_process_set_iter_ok.
  - exact other_process_set_iter_ok.
Defined.

Lemma export_without_consensus_witness :
  export sample_parse sample_convert sample_median sample_sort_str
    sample_sort_float sample_process
    [sample_report (Some 1000%Z) (Some 5%Z);
     sample_report (Some 1200%Z) (Some 5%Z)] = Ok [].
Proof.
  apply (export_without_consensus sample_parse sample_convert sample_median
           sample_sort_str sample_sort_float sample_process).
  - exact sample_process_set_iter_ok.
  - intros g [<-|[]]. vm_compute. lia.
Defined.
